(** * usaspending_pipeline: a shallow embedding of the bulk-backfill and
      incremental-search pipeline, with the properties of its specification.

    The embedded source is [usaspending_pipeline.py].  Python values are
    modelled as follows.

    - A [datetime] obtained from [strptime(.., "%Y-%m-%d")] is its proleptic
      Gregorian ordinal (0001-01-01 is day 1, 9999-12-31 is day 3652059);
      the time of day is always midnight and is left out.  Arithmetic that
      leaves this range raises [OverflowError], as in Python.
    - A date text that the code passes on is the day it names together
      with what decides whether [strptime] reads it again: [strftime]
      writes a year below 1000 on fewer than four digits, and [strptime]
      then raises [ValueError].
    - Texts are read as UTF-8.
    - Wall-clock time and sleep durations are rationals ([Q]); the binary
      floats of the source are exact on every constant the code uses
      (2.0, 1.5, 30.0, 45.0) and rounding is not modelled elsewhere.
    - Exceptions are values of [exn]; fallible code returns [result].
    - The network is a script: the list of the answers the remote side gives,
      in the order the code asks for them. *)

From Stdlib Require Import ZArith QArith Qminmax Lia Lqa List String Ascii Bool.
Import ListNotations.

Set Warnings "-register-all".

Local Open Scope Z_scope.

(* ------------------------------------------------------------------------- *)
(** * Exceptions and results *)
(* ------------------------------------------------------------------------- *)

(** The five places where the pipeline raises [RuntimeError] itself. *)
Inductive runtime_error : Type :=
| BulkStartFailed      (* "Bulk start failed: ..."                      *)
| BackendException     (* "Backend exception while generating file: .." *)
| NoFileUrl            (* "No file_url on finished job: ..."            *)
| BulkJobFailed        (* "Bulk job failed: ..."                        *)
| FileNotAvailable.    (* "File not available after ...s: ..."          *)

(** The exceptions that reach the modelled code.  [HTTPStatusError] is what
    [Response.raise_for_status] raises; [TransportError] stands for the
    connection and timeout errors of httpx.  In httpx both derive from
    [httpx.HTTPError]; the other exceptions do not.  [IndexError],
    [ValueError] and [AttributeError] are the built-in exceptions of an
    index out of range, of a date text that does not parse, and of a
    method called on [None]. *)
Inductive exn : Type :=
| RuntimeError (why : runtime_error)
| HTTPStatusError (status_code : Z)
| TransportError
| JSONDecodeError
| OverflowError
| OSError
| IndexError
| ValueError
| AttributeError.

(** [isinstance(e, httpx.HTTPError)]. *)
Definition is_HTTPError (e : exn) : bool :=
  match e with
  | HTTPStatusError _ | TransportError => true
  | _ => false
  end.

(** What a piece of code does: it returns a value, raises, or is still
    waiting in a loop when the script of the remote side ends. *)
Inductive result (A : Type) : Type :=
| Ok (a : A)
| Raise (e : exn)
| Pending.
Arguments Ok {A} a.
Arguments Raise {A} e.
Arguments Pending {A}.

Definition bind {A B : Type} (c : result A) (k : A -> result B) : result B :=
  match c with
  | Ok a => k a
  | Raise e => Raise e
  | Pending => Pending
  end.

Notation "x <- c ;; k" := (bind c (fun x => k))
  (at level 61, c at next level, right associativity).

(* ------------------------------------------------------------------------- *)
(** * Strings *)
(* ------------------------------------------------------------------------- *)

Module PyStr.

(** [str.lower] on ASCII text: the letters A..Z are mapped to a..z. *)
Definition lower_ascii (c : ascii) : ascii :=
  let n := nat_of_ascii c in
  if andb (Nat.leb 65 n) (Nat.leb n 90) then ascii_of_nat (n + 32) else c.

Fixpoint lower (s : string) : string :=
  match s with
  | EmptyString => EmptyString
  | String c t => String (lower_ascii c) (lower t)
  end.

(** [needle in hay]. *)
Fixpoint contains (needle hay : string) : bool :=
  if prefix needle hay then true
  else match hay with
       | EmptyString => false
       | String _ t => contains needle t
       end.

(** [hay.startswith(p)]. *)
Definition startswith (hay p : string) : bool := prefix p hay.

(** [x in xs] for a list of strings. *)
Definition mem (x : string) (xs : list string) : bool :=
  existsb (String.eqb x) xs.

End PyStr.

(** Stripping, slicing and splitting of texts. *)
Module Text.

(** [p] holds of every character of [s]. *)
Fixpoint all_chars (p : ascii -> bool) (s : string) : bool :=
  match s with
  | EmptyString => true
  | String c t => p c && all_chars p t
  end.

(** The first, respectively last, character of [s] satisfies [p]. *)
Definition starts_with_char (p : ascii -> bool) (s : string) : bool :=
  match s with
  | EmptyString => false
  | String c _ => p c
  end.

Fixpoint ends_with_char (p : ascii -> bool) (s : string) : bool :=
  match s with
  | EmptyString => false
  | String c EmptyString => p c
  | String _ t => ends_with_char p t
  end.

(** [str.lstrip], [str.rstrip] and [str.strip], the characters to remove
    being those that satisfy [p]. *)
Fixpoint lstrip (p : ascii -> bool) (s : string) : string :=
  match s with
  | EmptyString => EmptyString
  | String c t => if p c then lstrip p t else s
  end.

Fixpoint rstrip (p : ascii -> bool) (s : string) : string :=
  match s with
  | EmptyString => EmptyString
  | String c t =>
      match rstrip p t with
      | EmptyString => if p c then EmptyString else String c EmptyString
      | t' => String c t'
      end
  end.

Definition strip (p : ascii -> bool) (s : string) : string := rstrip p (lstrip p s).

(** [s[n:]]. *)
Fixpoint drop (n : nat) (s : string) : string :=
  match n, s with
  | O, _ => s
  | S n', String _ t => drop n' t
  | S _, EmptyString => EmptyString
  end.

(** [s.endswith(suffix)]. *)
Fixpoint endswith (s suffix : string) : bool :=
  if String.eqb s suffix then true
  else match s with
       | EmptyString => false
       | String _ t => endswith t suffix
       end.

(** [s.split(sep, 1)] for a one-character separator that occurs in [s]:
    the text before its first occurrence and the text after it. *)
Fixpoint split_once (sep : ascii) (s : string) : string * string :=
  match s with
  | EmptyString => (EmptyString, EmptyString)
  | String c t =>
      if Ascii.eqb c sep then (EmptyString, t)
      else let (a, b) := split_once sep t in (String c a, b)
  end.

(** ASCII white space, what [str.strip()] removes. *)
Definition is_space (c : ascii) : bool :=
  let n := nat_of_ascii c in
  (Nat.leb 9 n && Nat.leb n 13) || (Nat.leb 28 n && Nat.leb n 32).

Definition is_underscore (c : ascii) : bool := Ascii.eqb c "_".

(** Every character of [s] is white space, so that [s.strip()] is empty.
    The text is read as UTF-8: the white space of Python is U+0009 to
    U+000D, U+001C to U+0020, U+0085, U+00A0, U+1680, U+2000 to U+200A,
    U+2028, U+2029, U+202F, U+205F and U+3000. *)
Fixpoint only_whitespace (s : string) : bool :=
  match s with
  | EmptyString => true
  | String c s1 =>
      let n := N_of_ascii c in
      if (((9 <=? n) && (n <=? 13)) || ((28 <=? n) && (n <=? 32)))%N
      then only_whitespace s1
      else
        match s1 with
        | EmptyString => false
        | String d s2 =>
            let m := N_of_ascii d in
            if (n =? 194)%N then
              ((m =? 133) || (m =? 160))%N && only_whitespace s2
            else
              match s2 with
              | EmptyString => false
              | String f s3 =>
                  let k := N_of_ascii f in
                  (((n =? 225) && (m =? 154) && (k =? 128))
                   || ((n =? 226) && (m =? 128)
                       && (((128 <=? k) && (k <=? 138))
                           || (k =? 168) || (k =? 169) || (k =? 175)))
                   || ((n =? 226) && (m =? 129) && (k =? 159))
                   || ((n =? 227) && (m =? 128) && (k =? 128)))%N
                  && only_whitespace s3
              end
        end
  end.

End Text.

(* ------------------------------------------------------------------------- *)
(** * Dates *)
(* ------------------------------------------------------------------------- *)

Module Dates.

(** A [datetime] at midnight, as its ordinal. *)
Definition datetime : Type := Z.

Definition MINORDINAL : Z := 1.
Definition MAXORDINAL : Z := 3652059.

Definition in_datetime_range (d : Z) : Prop := MINORDINAL <= d <= MAXORDINAL.

Definition in_datetime_rangeb (d : Z) : bool :=
  (MINORDINAL <=? d) && (d <=? MAXORDINAL).

(** [datetime._is_leap]. *)
Definition _is_leap (year : Z) : bool :=
  (year mod 4 =? 0) && (negb (year mod 100 =? 0) || (year mod 400 =? 0)).

(** [datetime._days_before_year]. *)
Definition _days_before_year (year : Z) : Z :=
  let y := year - 1 in y * 365 + y / 4 - y / 100 + y / 400.

Definition _days_in_month (year month : Z) : Z :=
  if month =? 2 then (if _is_leap year then 29 else 28)
  else if (month =? 4) || (month =? 6) || (month =? 9) || (month =? 11)
       then 30 else 31.

(** [datetime._days_before_month]. *)
Definition _days_before_month (year month : Z) : Z :=
  nth (Z.to_nat month) [-1; 0; 31; 59; 90; 120; 151; 181; 212; 243; 273; 304; 334] 0
  + (if (2 <? month) && _is_leap year then 1 else 0).

(** [datetime._ymd2ord]. *)
Definition _ymd2ord (year month day : Z) : Z :=
  _days_before_year year + _days_before_month year month + day.

(** [strptime] on the fields of a "%Y-%m-%d" text: [ValueError] (here
    [None]) unless they name a day of the calendar. *)
Definition strptime (year month day : Z) : option datetime :=
  if (1 <=? year) && (year <=? 9999) && (1 <=? month) && (month <=? 12)
     && (1 <=? day) && (day <=? _days_in_month year month)
  then Some (_ymd2ord year month day) else None.

(** [timedelta(days=n)]: the magnitude is limited to 999999999 days. *)
Definition timedelta (days : Z) : result Z :=
  if (-999999999 <=? days) && (days <=? 999999999) then Ok days
  else Raise OverflowError.

(** [d + timedelta]: "date value out of range" outside years 1..9999. *)
Definition dt_add (d : datetime) (delta : Z) : result datetime :=
  if in_datetime_rangeb (d + delta) then Ok (d + delta) else Raise OverflowError.

(** [d + timedelta(days=n)], the constructor evaluated first. *)
Definition plus_days (d : datetime) (n : Z) : result datetime :=
  delta <- timedelta n ;; dt_add d delta.

(** [(e - s).days]. *)
Definition days_diff (e s : datetime) : Z := e - s.

(** A date written as "%Y-%m-%d": the day it names, and whether its year
    is written with four digits, as the [%Y] of [strptime] requires. *)
Record date_text : Type := {
  day_of : datetime;
  four_digit_year : bool
}.

(** The ordinal of 1000-01-01. *)
Definition FIRST_FOUR_DIGIT_DAY : Z := 364878.

(** [d.strftime("%Y-%m-%d")], with the [strftime] of the C library, which
    writes a year below 1000 without leading zeros. *)
Definition strftime (d : datetime) : date_text :=
  {| day_of := d; four_digit_year := FIRST_FOUR_DIGIT_DAY <=? d |}.

(** [dt.datetime.strptime(text, "%Y-%m-%d")]: [ValueError] when the year
    has fewer than four digits. *)
Definition strptime_text (text : date_text) : result datetime :=
  if four_digit_year text then Ok (day_of text) else Raise ValueError.

(** The text of a day as a user types it, the year on four digits. *)
Definition typed (d : datetime) : date_text :=
  {| day_of := d; four_digit_year := true |}.

End Dates.
Import Dates.

(** A date window, both ends inclusive. *)
Definition window : Type := (datetime * datetime)%type.

Definition in_window (w : window) (d : Z) : Prop := fst w <= d <= snd w.

(* ------------------------------------------------------------------------- *)
(** * Range arithmetic of the backfill driver *)
(* ------------------------------------------------------------------------- *)

(** [_days_between]. *)
Definition _days_between (start_date end_date : datetime) : Z :=
  days_diff end_date start_date + 1.

(** [_split_range]. *)
Definition _split_range (start_date end_date : datetime) : result (list window) :=
  let s := start_date in
  let e := end_date in
  mid <- plus_days s (days_diff e s / 2) ;;
  mid1 <- plus_days mid 1 ;;
  Ok [(s, mid); (mid1, e)].

(** [_days_between] and [_split_range] on the texts they are called with:
    the dates are parsed first, and the halves are handed back as texts. *)
Definition _days_between_text (start_date end_date : date_text) : result Z :=
  s <- strptime_text start_date ;;
  e <- strptime_text end_date ;;
  Ok (_days_between s e).

Definition _split_range_text (start_date end_date : date_text)
  : result (list (date_text * date_text)) :=
  s <- strptime_text start_date ;;
  e <- strptime_text end_date ;;
  halves <- _split_range s e ;;
  Ok (map (fun w => (strftime (fst w), strftime (snd w))) halves).

(* ------------------------------------------------------------------------- *)
(** * Rate limiter *)
(* ------------------------------------------------------------------------- *)

(** The fields of a [RateLimiter]. *)
Record RateLimiter : Type := {
  min_interval : Q;
  _last : Q
}.

(** [RateLimiter.__init__], for a rate that is a finite number. *)
Definition RateLimiter_init (rps : Q) : RateLimiter :=
  {| min_interval := (1 / Qmax rps (1 # 10))%Q; _last := 0%Q |}.

(** A Python float, such as [float(os.getenv(...))] returns: a finite
    number, an infinity or nan.  Rounding is not modelled. *)
Inductive pyfloat : Type :=
| Finite (q : Q)
| PosInf
| NegInf
| NaN.

(** [b > a] on floats: false as soon as one of them is nan. *)
Definition float_gt (b a : pyfloat) : bool :=
  match b, a with
  | NaN, _ | _, NaN => false
  | Finite x, Finite y => if Qlt_le_dec y x then true else false
  | Finite _, PosInf => false
  | Finite _, NegInf => true
  | PosInf, PosInf => false
  | PosInf, _ => true
  | NegInf, _ => false
  end.

(** [max(a, b)] of Python: [b] when [b > a], otherwise [a]. *)
Definition py_max (a b : pyfloat) : pyfloat :=
  if float_gt b a then b else a.

(** [1.0 / x], for [x] other than zero. *)
Definition float_inverse (x : pyfloat) : pyfloat :=
  match x with
  | Finite q => Finite (1 / q)%Q
  | PosInf | NegInf => Finite 0%Q
  | NaN => NaN
  end.

(** The [min_interval] that [RateLimiter.__init__] computes, for every
    float. *)
Definition min_interval_of (rps : pyfloat) : pyfloat :=
  float_inverse (py_max rps (Finite (1 # 10)%Q)).

(** [RateLimiter.wait], called when the clock reads [clock].  [time.sleep]
    advances the clock by its argument; [lag] is whatever time passes in
    the call besides (scheduling, a sleep that lasts longer than asked).
    The result is the limiter and the clock at the moment of return. *)
Definition wait (self : RateLimiter) (clock lag : Q) : RateLimiter * Q :=
  let now := clock in
  let delta := (now - _last self)%Q in
  let clock :=
    if Qlt_le_dec delta (min_interval self)
    then (clock + (min_interval self - delta))%Q
    else clock in
  let clock := (clock + lag)%Q in
  ({| min_interval := min_interval self; _last := clock |}, clock).

(** Consecutive calls of [wait] on one limiter.  Each call comes with the
    time the caller spends before it ([gap]) and the [lag] inside it; the
    result is the list of the return times, in order. *)
Fixpoint wait_calls (self : RateLimiter) (clock : Q) (calls : list (Q * Q)) : list Q :=
  match calls with
  | [] => []
  | (gap, lag) :: rest =>
      let (self', returned) := wait self (clock + gap)%Q lag in
      returned :: wait_calls self' returned rest
  end.

(** Every gap and lag is a non-negative duration. *)
Definition durations (calls : list (Q * Q)) : Prop :=
  Forall (fun c => (0 <= fst c)%Q /\ (0 <= snd c)%Q) calls.

(** Successive times of [ts] are at least [d] apart. *)
Fixpoint spaced (d : Q) (ts : list Q) : Prop :=
  match ts with
  | [] => True
  | t1 :: rest =>
      match rest with
      | [] => True
      | t2 :: _ => (t1 + d <= t2)%Q /\ spaced d rest
      end
  end.

(* ------------------------------------------------------------------------- *)
(** * HTTP client wrapper *)
(* ------------------------------------------------------------------------- *)

(** [Response.raise_for_status]: raises [HTTPStatusError] unless the
    status is 2xx. *)
Definition raise_for_status (status_code : Z) : result unit :=
  if (200 <=? status_code) && (status_code <? 300) then Ok tt
  else Raise (HTTPStatusError status_code).

(** A decoded JSON object, as its fields. *)
Definition json_dict : Type := list (string * string).

(** What [_request] looks at in a response; [resp_json] is [None] when the
    body does not decode. *)
Record Response : Type := {
  resp_status : Z;
  resp_content_type : string;
  resp_json : option json_dict
}.

(** What [client.request] does: it returns a response or raises a
    connection or timeout error. *)
Inductive net_reply : Type :=
| NetResponse (resp : Response)
| NetError.

(** The body of [USAClient._request], without the decorator. *)
Definition _request_body (reply : net_reply) : result json_dict :=
  match reply with
  | NetError => Raise TransportError
  | NetResponse resp =>
      _ <- raise_for_status (resp_status resp) ;;
      if PyStr.startswith (resp_content_type resp) "application/json"%string then
        match resp_json resp with
        | Some d => Ok d
        | None => Raise JSONDecodeError
        end
      else Ok []
  end.

Definition max_time : Q := 180.

(** One try of the decorated function: the seconds elapsed since the first
    try when it starts, what the network does, and the random factor in
    [0, 1] that [backoff.full_jitter] draws for the wait after it.  The
    call of the rate limiter at the head of the body only takes time, which
    the [elapsed] of the next try accounts for. *)
Record attempt : Type := {
  elapsed : Q;
  reply : net_reply;
  jitter : Q
}.

(** [_request] under [@backoff.on_exception(backoff.expo,
    (httpx.HTTPError,), max_time=180)].  The library retries when the
    exception is an instance of the listed class and the elapsed time is
    below [max_time]; the [n]-th wait is at most [2^n] seconds and never
    longer than the time left.  The second component lists the waits. *)
Fixpoint _request_from (n : nat) (script : list attempt) : result json_dict * list Q :=
  match script with
  | [] => (Pending, [])
  | a :: rest =>
      match _request_body (reply a) with
      | Raise e =>
          if is_HTTPError e then
            if Qle_bool max_time (elapsed a) then (Raise e, [])
            else
              let seconds := Qmin (jitter a * inject_Z (2 ^ Z.of_nat n))
                                  (max_time - elapsed a) in
              let (r, waits) := _request_from (S n) rest in
              (r, seconds :: waits)
          else (Raise e, [])
      | r => (r, [])
      end
  end.

(** [USAClient._request]. *)
Definition _request (script : list attempt) : result json_dict * list Q :=
  _request_from 0 script.

(* ------------------------------------------------------------------------- *)
(** * Minimal deduplication *)
(* ------------------------------------------------------------------------- *)

(** A cell of a table read with [dtype=str]: a text, or missing (NaN). *)
Definition cell : Type := option string.

(** A [DataFrame]: its column labels, taken to be distinct, and its rows
    in order, each row listing its cells in the order of the columns. *)
Record DataFrame : Type := {
  columns : list string;
  rows : list (list cell)
}.

Definition cell_eq_dec (a b : cell) : {a = b} + {a <> b}.
Proof. decide equality. apply string_dec. Defined.

Definition key_eq_dec (a b : list cell) : {a = b} + {a <> b} :=
  list_eq_dec cell_eq_dec a b.

(** Position of a label among the columns. *)
Fixpoint column_index (c : string) (cols : list string) : nat :=
  match cols with
  | [] => O
  | c' :: rest => if String.eqb c c' then O else S (column_index c rest)
  end.

(** The cells of a row under the columns [keys]. *)
Definition key_of (cols keys : list string) (row : list cell) : list cell :=
  map (fun c => nth (column_index c cols) row None) keys.

(** Rows in order, a row being dropped when its key was seen before:
    [keep="first"], missing values comparing equal as in pandas. *)
Fixpoint drop_seen (key : list cell -> list cell) (seen : list (list cell))
  (rs : list (list cell)) : list (list cell) :=
  match rs with
  | [] => []
  | r :: rest =>
      if in_dec key_eq_dec (key r) seen then drop_seen key seen rest
      else r :: drop_seen key (key r :: seen) rest
  end.

(** [DataFrame.drop_duplicates(subset=keys)]. *)
Definition drop_duplicates (df : DataFrame) (keys : list string) : DataFrame :=
  {| columns := columns df;
     rows := drop_seen (key_of (columns df) keys) [] (rows df) |}.

Definition KEY_COLUMNS : list string :=
  ["Award ID"; "Start Date"; "End Date"; "Last Modified Date"]%string.

(** The list comprehension of [dedupe_minimal]. *)
Definition present_keys (df : DataFrame) : list string :=
  filter (fun c => PyStr.mem c (columns df)) KEY_COLUMNS.

(** [dedupe_minimal]. *)
Definition dedupe_minimal (df : DataFrame) : DataFrame :=
  let keys := present_keys df in
  match keys with
  | [] => df
  | _ => drop_duplicates df keys
  end.

(** [l1] is [l2] with some elements left out, the order kept. *)
Inductive Subseq {A : Type} : list A -> list A -> Prop :=
| Subseq_nil : Subseq [] []
| Subseq_skip (x : A) (l1 l2 : list A) : Subseq l1 l2 -> Subseq l1 (x :: l2)
| Subseq_keep (x : A) (l1 l2 : list A) : Subseq l1 l2 -> Subseq (x :: l1) (x :: l2).

(** [r] occurs in [rs] with no earlier row of the same key. *)
Definition first_with_key (key : list cell -> list cell) (rs : list (list cell))
  (r : list cell) : Prop :=
  exists before after : list (list cell),
    rs = before ++ r :: after /\ ~ In (key r) (map key before).

(** Number of distinct key tuples of a table. *)
Definition distinct_keys (df : DataFrame) : nat :=
  List.length (nodup key_eq_dec (map (key_of (columns df) (present_keys df)) (rows df))).

(* ------------------------------------------------------------------------- *)
(** * Resilient file download *)
(* ------------------------------------------------------------------------- *)

(** What one GET of the download session produces: a response with its
    status code, or an [httpx.HTTPError] raised by the call. *)
Inductive http_reply : Type :=
| Status (status_code : Z)
| HTTPErr.

(** What happens to the body of a 200 response while it is written to
    disk: it arrives whole, the connection breaks ([httpx.HTTPError]), or
    the file cannot be written ([OSError]). *)
Inductive body_result : Type :=
| BodyComplete
| BodyReadError
| BodyDiskError.

(** The answers of the file server to one call of [_download_file]: the
    probes (each with the time the request took) and the streamed GETs. *)
Record DownloadScript : Type := {
  probes : list (http_reply * Q);
  gets : list (http_reply * body_result)
}.

(** The nested [is_available]. *)
Definition is_available (r : http_reply) : bool :=
  match r with
  | Status c =>
      (c =? 200) || (c =? 206) || (c =? 301) || (c =? 302) || (c =? 303)
      || (c =? 307) || (c =? 308)
  | HTTPErr => false
  end.

Definition max_wait_seconds : Q := 2700.

(** The availability loop of [_download_file]; [elapsed] is
    [time.time() - start]. *)
Fixpoint probe_loop (script : list (http_reply * Q)) (elapsed backoff_sec : Q)
  : result unit :=
  match script with
  | [] => Pending
  | (r, took) :: rest =>
      if is_available r then Ok tt
      else
        let elapsed' := (elapsed + took + backoff_sec)%Q in
        if Qlt_le_dec max_wait_seconds elapsed'
        then Raise (RuntimeError FileNotAvailable)
        else probe_loop rest elapsed' (Qmin (backoff_sec * (3 # 2)) 30)
  end.

(** The [try] block of one pass of the streaming loop.  [Ok true] is the
    [return] after a complete download, [Ok false] falls through to the
    sleep; an exception caught by [except httpx.HTTPError] also falls
    through, any other exception leaves the function. *)
Definition fetch_once (g : http_reply * body_result) : result bool :=
  let attempt :=
    match fst g with
    | HTTPErr => Raise TransportError
    | Status c =>
        if c =? 200 then
          match snd g with
          | BodyComplete => Ok true
          | BodyReadError => Raise TransportError
          | BodyDiskError => Raise OSError
          end
        else if (c =? 403) || (c =? 404) || (c =? 429)
                || ((500 <=? c) && (c <? 600)) then Ok false
        else (_ <- raise_for_status c ;; Ok false)
    end in
  match attempt with
  | Raise e => if is_HTTPError e then Ok false else Raise e
  | r => r
  end.

(** The [while True] loop of [_download_file]; the second component is the
    list of the durations passed to [time.sleep], in order. *)
Fixpoint fetch_loop (script : list (http_reply * body_result)) (backoff_sec : Q)
  : result unit * list Q :=
  match script with
  | [] => (Pending, [])
  | g :: rest =>
      match fetch_once g with
      | Ok true => (Ok tt, [])
      | Ok false =>
          let (r, sleeps) := fetch_loop rest (Qmin (backoff_sec * (3 # 2)) 45) in
          (r, backoff_sec :: sleeps)
      | Raise e => (Raise e, [])
      | Pending => (Pending, [])
      end
  end.

(** [_download_file]. *)
Definition _download_file (ds : DownloadScript) : result unit :=
  _ <- probe_loop (probes ds) 0 2 ;;
  fst (fetch_loop (gets ds) 2).

(* ------------------------------------------------------------------------- *)
(** * Bulk job runner *)
(* ------------------------------------------------------------------------- *)

(** The JSON answer to the job submission. *)
Record StartResp : Type := {
  sr_file_name : option string;
  sr_status_url : option string;
  sr_file_url : option string
}.

(** The JSON answer to one status poll: [str(stat.get("status", ""))],
    the message when it is a string (the empty string when it is absent or
    [null]), and the file URL. *)
Record StatusResp : Type := {
  st_status : string;
  st_message : string;
  st_file_url : option string
}.

(** What the remote side does for one job: the answer to the submission,
    the answers to the successive polls, the file server's behaviour and
    the outcome of unpacking the archive.  A client call that gives up
    raises instead of answering. *)
Record JobScript : Type := {
  js_start : result StartResp;
  js_polls : list (result StatusResp);
  js_download : DownloadScript;
  js_unzip : result unit
}.

(** Truth value of an optional string: [None] and [""] are falsy. *)
Definition truthy (o : option string) : bool :=
  match o with
  | Some s => negb (String.eqb s ""%string)
  | None => false
  end.

(** [a or b]. *)
Definition py_or (a b : option string) : option string :=
  if truthy a then a else b.

(** The body of [if status in {"finished", "ready", "success"}]. The
    conversion of the extracted files to Parquet catches every exception
    and so does not change the result. *)
Definition finish_job (start_resp : StartResp) (stat : StatusResp)
  (js : JobScript) : result unit :=
  let file_url := py_or (st_file_url stat) (sr_file_url start_resp) in
  if negb (truthy file_url) then Raise (RuntimeError NoFileUrl)
  else
    _ <- _download_file (js_download js) ;;
    _ <- js_unzip js ;;
    Ok tt.

(** A message that is not empty but holds white space only: on it
    [msg.strip().splitlines()] is the empty list. *)
Definition blank_message (msg : string) : bool :=
  negb (String.eqb msg ""%string) && Text.only_whitespace msg.

(** The polling loop of [_run_bulk_job_or_raise].  The first test is the
    [[0]] of the line that logs the status, which raises [IndexError] on a
    blank message. *)
Fixpoint poll_loop (start_resp : StartResp) (js : JobScript)
  (consecutive_exception_msgs : nat) (polls : list (result StatusResp))
  : result unit :=
  match polls with
  | [] => Pending
  | p :: rest =>
      stat <- p ;;
      let status := PyStr.lower (st_status stat) in
      let msg := st_message stat in
      if blank_message msg then Raise IndexError else
      let hit := PyStr.contains "exception"%string (PyStr.lower msg) in
      let consecutive_exception_msgs :=
        if hit then S consecutive_exception_msgs else consecutive_exception_msgs in
      if hit && (3 <=? consecutive_exception_msgs)%nat then
        Raise (RuntimeError BackendException)
      else if PyStr.mem status ["finished"; "ready"; "success"]%string then
        finish_job start_resp stat js
      else if PyStr.mem status ["failed"; "error"]%string then
        Raise (RuntimeError BulkJobFailed)
      else poll_loop start_resp js consecutive_exception_msgs rest
  end.

(** [_run_bulk_job_or_raise]. *)
Definition _run_bulk_job_or_raise (js : JobScript) : result unit :=
  start_resp <- js_start js ;;
  if negb (truthy (sr_file_name start_resp)) then
    Raise (RuntimeError BulkStartFailed)
  else poll_loop start_resp js 0 (js_polls js).

(* ------------------------------------------------------------------------- *)
(** * Auto-splitting backfill driver *)
(* ------------------------------------------------------------------------- *)

(** One call of [_attempt]: its window, the result of the job it ran, and
    the calls it made on the halves. *)
Inductive call : Type :=
| Call (s e : datetime) (job : result unit) (subcalls : list call).

(** [for s2, e2 in halves: _attempt(s2, e2)]: the first exception ends the
    loop.  [None] means the recursion ran out of fuel. *)
Fixpoint for_each {D : Type} (f : D -> D -> option (result unit * call))
  (ws : list (D * D)) : option (result unit * list call) :=
  match ws with
  | [] => Some (Ok tt, [])
  | (s2, e2) :: rest =>
      match f s2 e2 with
      | None => None
      | Some (Ok _, c) =>
          match for_each f rest with
          | None => None
          | Some (r, cs) => Some (r, c :: cs)
          end
      | Some (r, c) => Some (r, [c])
      end
  end.

Section Driver.

(** The job runner as seen by the driver: what a job on a window does. *)
Variable run_job : datetime -> datetime -> result unit.
Variable min_split_days : Z.

(** The nested [_attempt] of [bulk_backfill_awards].  Its arguments are
    date texts: the dates the caller typed at the first call, the texts
    that [_split_range] wrote at the calls below. *)
Fixpoint _attempt (fuel : nat) (s e : date_text) : option (result unit * call) :=
  match fuel with
  | O => None
  | S fuel' =>
      let job := run_job (day_of s) (day_of e) in
      let here := Call (day_of s) (day_of e) job in
      match job with
      | Raise (RuntimeError _) =>
          match _days_between_text s e with
          | Ok days =>
              if days >? min_split_days then
                match _split_range_text s e with
                | Ok halves =>
                    match for_each (_attempt fuel') halves with
                    | None => None
                    | Some (r, cs) => Some (r, here cs)
                    end
                | Raise ex => Some (Raise ex, here [])
                | Pending => Some (Pending, here [])
                end
              else Some (job, here [])
          | Raise ex => Some (Raise ex, here [])
          | Pending => Some (Pending, here [])
          end
      | _ => Some (job, here [])
      end
  end.

End Driver.

(** [AWARD_TYPE_GROUPS]. *)
Definition AWARD_TYPE_GROUPS : list (string * list string) :=
  [ ("contracts", ["A"; "B"; "C"; "D"]);
    ("loans", ["07"; "08"]);
    ("idvs", ["IDV_A"; "IDV_B"; "IDV_B_A"; "IDV_B_B"; "IDV_B_C"; "IDV_C";
              "IDV_D"; "IDV_E"]);
    ("grants", ["02"; "03"; "04"; "05"]);
    ("other_fin_ast", ["06"; "10"]);
    ("direct_payments", ["09"; "11"; "-1"]) ]%string.

(** [group in AWARD_TYPE_GROUPS]. *)
Definition known_group (group : string) : bool :=
  PyStr.mem group (map fst AWARD_TYPE_GROUPS).

(** What [bulk_backfill_awards] did with one group. *)
Inductive group_event : Type :=
| Skipped (group : string)
| Attempted (group : string) (c : call).

(** The loop over the groups of [bulk_backfill_awards].  The remote side is
    [backend]: what it does for the job of a group on a window. *)
Fixpoint backfill_groups (backend : string -> datetime -> datetime -> JobScript)
  (min_split_days : Z) (fuel : nat) (start_date end_date : date_text)
  (groups : list string) : option (result unit * list group_event) :=
  match groups with
  | [] => Some (Ok tt, [])
  | group :: rest =>
      if negb (known_group group) then
        match backfill_groups backend min_split_days fuel start_date end_date rest with
        | None => None
        | Some (r, evs) => Some (r, Skipped group :: evs)
        end
      else
        match _attempt (fun s e => _run_bulk_job_or_raise (backend group s e))
                       min_split_days fuel start_date end_date with
        | None => None
        | Some (Ok _, c) =>
            match backfill_groups backend min_split_days fuel start_date end_date rest with
            | None => None
            | Some (r, evs) => Some (r, Attempted group c :: evs)
            end
        | Some (r, c) => Some (r, [Attempted group c])
        end
  end.


(** Levels of splitting below a call. *)
Fixpoint levels (c : call) : nat :=
  match c with
  | Call _ _ _ cs =>
      match cs with
      | [] => O
      | _ :: _ => S (fold_right (fun c' n => Nat.max (levels c') n) O cs)
      end
  end.

(** [P] holds of every call of the tree. *)
Fixpoint every_call (P : datetime -> datetime -> result unit -> list call -> Prop)
  (c : call) : Prop :=
  match c with
  | Call s e job cs =>
      P s e job cs /\ fold_right (fun c' acc => every_call P c' /\ acc) True cs
  end.

(** [max(0, ceil(log2(D / M)))] for positive [D] and [M]: the least
    [k >= 0] with [D <= M * 2^k]. *)
Definition ceil_log2_ratio (D M : Z) : Z := Z.log2_up ((D + M - 1) / M).

(** [ceil(log2(D / M))] for positive [D] and [M], negative values
    included: [- floor(log2(M / D))] when [D <= M]. *)
Definition ceil_log2_of_ratio (D M : Z) : Z :=
  if D <=? M then - Z.log2 (M / D) else Z.log2_up ((D + M - 1) / M).

(** What holds of every call of an attempt that ended with [r], whatever
    the texts of the requested window: as [call_ok] below, without the
    clause of the requested window. *)
Definition call_ok_below (run_job : datetime -> datetime -> result unit) (M : Z)
  (s0 e0 : Z) (r : result unit)
  (s e : datetime) (job : result unit) (cs : list call) : Prop :=
  1 <= _days_between s e /\ s0 <= s /\ e <= e0
  /\ job = run_job s e
  /\ (_days_between s e <= M ->
      cs = []
      /\ forall ex, job = Raise ex ->
           FIRST_FOUR_DIGIT_DAY <= s \/ (forall why, ex <> RuntimeError why) ->
           r = Raise ex).

(** What holds of every call below an attempt on [s0..e0] that ended
    with [r]: its window has at least one day and lies inside [s0..e0], its
    job is the one the runner ran on that window; a window of at most [M]
    days is not split, and a job that raised on such a window is the result
    of the whole attempt, when the window is the requested one, or starts
    in year 1000 or later, or the exception is not a [RuntimeError]. *)
Definition call_ok (run_job : datetime -> datetime -> result unit) (M : Z)
  (s0 e0 : Z) (r : result unit)
  (s e : datetime) (job : result unit) (cs : list call) : Prop :=
  1 <= _days_between s e /\ s0 <= s /\ e <= e0
  /\ job = run_job s e
  /\ (_days_between s e <= M ->
      cs = []
      /\ forall ex, job = Raise ex ->
           (s = s0 /\ e = e0) \/ FIRST_FOUR_DIGIT_DAY <= s
           \/ (forall why, ex <> RuntimeError why) ->
           r = Raise ex).

(* ------------------------------------------------------------------------- *)
(** * Incremental search: shard generation *)
(* ------------------------------------------------------------------------- *)

(** What [shard_iter] yields: [(group, shard_start, shard_end, agency)]. *)
Definition shard : Type := (string * datetime * datetime * option string)%type.

(** The [while current <= end] loop of [shard_iter].  [yield s e] is what the
    two inner [for] loops yield for a window.  The result is the sequence
    of the values yielded in [fuel] passes and the way the generator ended:
    [Some (Ok tt)] when it is exhausted, [Some (Raise ex)] when it raised,
    [None] when it is still running after [fuel] passes. *)
Fixpoint shard_loop {A : Type} (yield : datetime -> datetime -> list A)
  (fuel : nat) (current end_ : datetime) (chunk_days : Z)
  : list A * option (result unit) :=
  match fuel with
  | O => ([], None)
  | S fuel' =>
      if current <=? end_ then
        match plus_days current (chunk_days - 1) with
        | Ok x =>
            let shard_end := Z.min x end_ in
            let yielded := yield current shard_end in
            match plus_days shard_end 1 with
            | Ok next =>
                let (rest, fin) := shard_loop yield fuel' next end_ chunk_days in
                (yielded ++ rest, fin)
            | Raise ex => (yielded, Some (Raise ex))
            | Pending => (yielded, Some Pending)
            end
        | Raise ex => ([], Some (Raise ex))
        | Pending => ([], Some Pending)
        end
      else ([], Some (Ok tt))
  end.

(** [groups or ["contracts"]]. *)
Definition groups_or_default (groups : list string) : list string :=
  match groups with
  | [] => ["contracts"%string]
  | _ => groups
  end.

(** [agencies or [None]]. *)
Definition agencies_or_none (agencies : option (list string)) : list (option string) :=
  match agencies with
  | None | Some [] => [None]
  | Some l => map Some l
  end.

(** [for g in groups: for a in agencies: yield (g, s, e, a)]. *)
Definition shards_of_window (groups : list string) (agencies : list (option string))
  (s e : datetime) : list shard :=
  flat_map (fun g => map (fun a => (g, s, e, a)) agencies) groups.

(** [shard_iter]. *)
Definition shard_iter (fuel : nat) (start_date end_date : datetime)
  (groups : list string) (agencies : option (list string)) (chunk_days : Z)
  : list shard * option (result unit) :=
  let groups := groups_or_default groups in
  let agencies := agencies_or_none agencies in
  shard_loop (shards_of_window groups agencies) fuel start_date end_date chunk_days.

(** The date windows of [shard_iter], one per pass of its loop. *)
Definition shard_windows (fuel : nat) (start_date end_date : datetime) (chunk_days : Z)
  : list window * option (result unit) :=
  shard_loop (fun s e => [(s, e)]) fuel start_date end_date chunk_days.

(** The windows [ws] are consecutive and tile [from..to]: the first starts
    at [from], each next one starts the day after the previous one ends,
    the last ends at [to], and none is empty. *)
Fixpoint tiles (from : Z) (ws : list window) (to : Z) : Prop :=
  match ws with
  | [] => from = to + 1
  | w :: rest => fst w = from /\ fst w <= snd w /\ tiles (snd w + 1) rest to
  end.

Definition in_windowb (d : Z) (w : window) : bool :=
  (fst w <=? d) && (d <=? snd w).

(** Number of windows of [ws] that contain the day [d]. *)
Definition covering (ws : list window) (d : Z) : nat :=
  List.length (filter (in_windowb d) ws).

(* ------------------------------------------------------------------------- *)
(** * Scripts used in the examples *)
(* ------------------------------------------------------------------------- *)

Module Scripts.

(** A poll answered "running" with the given message. *)
Definition running (msg : string) : result StatusResp :=
  Ok {| st_status := "running"; st_message := msg; st_file_url := None |}.

(** A poll answered "finished", with or without a file URL. *)
Definition finished (url : option string) : result StatusResp :=
  Ok {| st_status := "finished"; st_message := ""; st_file_url := url |}.

(** A submission that was given a job identifier. *)
Definition started : result StartResp :=
  Ok {| sr_file_name := Some "PrimeAwards_2024.zip"%string;
        sr_status_url := None; sr_file_url := None |}.


(** A file server that serves the archive at once. *)
Definition ready_download : DownloadScript :=
  {| probes := [(Status 206, 1 # 2)]; gets := [(Status 200, BodyComplete)] |}.

Definition job_polling (polls : list (result StatusResp)) : JobScript :=
  {| js_start := started; js_polls := polls;
     js_download := ready_download; js_unzip := Ok tt |}.

(** A job that runs and delivers its file. *)
Definition good_job : JobScript :=
  job_polling [running ""%string;
               finished (Some "https://files.usaspending.gov/PrimeAwards_2024.zip"%string)].




(** The example of the specification: two clean polls, then three
    messages in a row that mention an exception. *)
Definition three_in_a_row : list (result StatusResp) :=
  [running ""; running ""; running "running(exception)";
   running "running(exception)"; running "running(exception)"]%string.

(** Three messages that mention an exception, no two of them on
    consecutive polls. *)
Definition three_apart : list (result StatusResp) :=
  [running "java.lang.Exception: lock timeout"; running "";
   running "Exception while querying"; running "";
   running "exception"]%string.

(** The file server answers 400, then 204, then serves the file. *)
Definition bad_request_then_file : list (http_reply * body_result) :=
  [(Status 400, BodyComplete); (Status 204, BodyComplete); (Status 200, BodyComplete)].

(** A table with two of the key columns, whose second and fourth rows
    repeat the keys of the first, and whose third row has a missing
    start date. *)
Definition awards_table : DataFrame :=
  {| columns := ["Award ID"; "Recipient Name"; "Start Date"];
     rows := [ [Some "W91"; Some "ACME"; Some "2024-09-01"];
               [Some "W91"; Some "ACME CORP"; Some "2024-09-01"];
               [Some "W91"; Some "ACME"; None];
               [Some "W91"; Some "ACME INC"; Some "2024-09-01"];
               [Some "N00"; Some "INITECH"; Some "2024-09-02"] ] |}%string.

(** A table with none of the key columns. *)
Definition recipients_table : DataFrame :=
  {| columns := ["Recipient Name"; "Recipient UEI"];
     rows := [ [Some "ACME"; Some "U1"]; [Some "ACME"; Some "U1"] ] |}%string.

(** Tries of [_request]: a 503 answer at once, the same after 181
    seconds, a JSON answer one second after the first try, a JSON answer
    that does not decode, and a page of text. *)
Definition unavailable : Response :=
  {| resp_status := 503; resp_content_type := "text/html"; resp_json := None |}.

Definition first_try : attempt :=
  {| elapsed := 0; reply := NetResponse unavailable; jitter := 1 # 2 |}.

Definition late_try : attempt :=
  {| elapsed := 181; reply := NetResponse unavailable; jitter := 1 # 2 |}.

Definition json_try : attempt :=
  {| elapsed := 1; jitter := 1 # 2;
     reply := NetResponse {| resp_status := 200;
                             resp_content_type := "application/json";
                             resp_json := Some [("status", "running")] |} |}%string.

Definition undecodable_try : attempt :=
  {| elapsed := 0; jitter := 0;
     reply := NetResponse {| resp_status := 200;
                             resp_content_type := "application/json";
                             resp_json := None |} |}.

Definition plain_try : attempt :=
  {| elapsed := 0; jitter := 0;
     reply := NetResponse {| resp_status := 200; resp_content_type := "text/html";
                             resp_json := None |} |}.

(** A job that always fails on the backend. *)
Definition always_failing (s e : datetime) : result unit :=
  Raise (RuntimeError BulkJobFailed).

End Scripts.

(** The polls whose message mentions an exception. *)
Definition exception_bearing (p : result StatusResp) : bool :=
  match p with
  | Ok stat => PyStr.contains "exception"%string (PyStr.lower (st_message stat))
  | _ => false
  end.

(** The polls that are answered, with a status that is neither a success
    nor a failure. *)
Definition nonterminal (p : result StatusResp) : bool :=
  match p with
  | Ok stat =>
      negb (PyStr.mem (PyStr.lower (st_status stat)) ["finished"; "ready"; "success"]%string)
      && negb (PyStr.mem (PyStr.lower (st_status stat)) ["failed"; "error"]%string)
  | _ => false
  end.

(** The polls whose message, when answered, can be logged: it is empty or
    holds a visible character. *)
Definition loggable (p : result StatusResp) : bool :=
  match p with
  | Ok stat => negb (blank_message (st_message stat))
  | _ => true
  end.

(** Number of exception-bearing polls of a script. *)
Definition count_exception_msgs (polls : list (result StatusResp)) : nat :=
  List.length (filter exception_bearing polls).

(* ------------------------------------------------------------------------- *)
(** * File names and agency specifiers *)
(* ------------------------------------------------------------------------- *)


(** The characters outside the class [[^A-Za-z0-9_.-]] of [_safe_slug]. *)
Definition is_slug_char (c : ascii) : bool :=
  let n := nat_of_ascii c in
  (Nat.leb 65 n && Nat.leb n 90) || (Nat.leb 97 n && Nat.leb n 122)
  || (Nat.leb 48 n && Nat.leb n 57)
  || Nat.eqb n 95 || Nat.eqb n 46 || Nat.eqb n 45.

(** [re.sub(r"[^A-Za-z0-9_.-]+", "_", s)]: every maximal run of characters
    outside the class becomes one underscore.  [in_run] tells that the
    previous character was outside the class. *)
Fixpoint sub_unsafe_runs (in_run : bool) (s : string) : string :=
  match s with
  | EmptyString => EmptyString
  | String c t =>
      if is_slug_char c then String c (sub_unsafe_runs false t)
      else if in_run then sub_unsafe_runs true t
      else String "_" (sub_unsafe_runs true t)
  end.

(** [_safe_slug]. *)
Definition _safe_slug (s : string) : string :=
  Text.strip Text.is_underscore (sub_unsafe_runs false s).

(** The archive name of [_run_bulk_job_or_raise]: [dest_name]. *)
Definition dest_name (file_name : string) : string :=
  let dest_name := _safe_slug file_name in
  if negb (Text.endswith (PyStr.lower dest_name) ".zip") then (dest_name ++ ".zip")%string
  else dest_name.

(** An entry of the [agencies] filter of a bulk download. *)
Record AgencyFilter : Type := {
  ag_type : string;
  ag_tier : string;
  ag_name : string;
  ag_toptier_name : option string
}.

(** The body of the loop of [_parse_agency_strings]. *)
Definition parse_agency (default_type raw : string) : AgencyFilter :=
  let s := Text.strip Text.is_space raw in
  let '(a_type, s) :=
    if PyStr.startswith (PyStr.lower s) "funding:" then
      ("funding"%string, Text.strip Text.is_space (Text.drop 8 s))
    else if PyStr.startswith (PyStr.lower s) "awarding:" then
      ("awarding"%string, Text.strip Text.is_space (Text.drop 9 s))
    else (default_type, s) in
  if PyStr.contains "|" s then
    let (subtier, toptier) := Text.split_once "|" s in
    {| ag_type := a_type; ag_tier := "subtier";
       ag_name := Text.strip Text.is_space subtier;
       ag_toptier_name := Some (Text.strip Text.is_space toptier) |}
  else
    {| ag_type := a_type; ag_tier := "toptier"; ag_name := s;
       ag_toptier_name := None |}.

(** [_parse_agency_strings]. *)
Definition _parse_agency_strings (agencies : option (list string))
  (default_type : string) : option (list AgencyFilter) :=
  match agencies with
  | None | Some [] => None
  | Some l =>
      match map (parse_agency default_type) l with
      | [] => None
      | out => Some out
      end
  end.

(* ------------------------------------------------------------------------- *)
(** * Observations on the call tree of the driver *)
(* ------------------------------------------------------------------------- *)

(** The windows whose job returned normally, in the order of the calls. *)
Fixpoint delivered (c : call) : list window :=
  match c with
  | Call s e job cs =>
      (match job with Ok _ => [(s, e)] | _ => [] end) ++ flat_map delivered cs
  end.

(** The jobs submitted by a call of [_attempt] and by the calls below it. *)
Fixpoint jobs_submitted (c : call) : nat :=
  match c with
  | Call _ _ _ cs => S (fold_right (fun c' n => (jobs_submitted c' + n)%nat) O cs)
  end.

(** The group an event of [bulk_backfill_awards] is about. *)
Definition event_group (ev : group_event) : string :=
  match ev with
  | Skipped g => g
  | Attempted g _ => g
  end.

(* ------------------------------------------------------------------------- *)
(** * Incremental search: draining the pages and writing the shards *)
(* ------------------------------------------------------------------------- *)

(** The [page_metadata] of an answer of the search endpoint: the key is
    missing, its value is [null] (or another value without a [get]
    method), or it is an object, of which the truth value of [hasNext] is
    kept ([False] when absent). *)
Inductive page_metadata : Type :=
| MetaMissing
| MetaNull
| Meta (hasNext : bool).

(** What [drain_spending_by_award] reads in one answer of the search
    endpoint: [resp.get("results") or []], each result row listing its
    cells in the order of the fields, and the page metadata. *)
Record Page : Type := {
  results : list (list cell);
  metadata : page_metadata
}.

(** [meta.get("hasNext", False)] for [meta = resp.get("page_metadata", {})]:
    [AttributeError] when the value is [null]. *)
Definition hasNext (resp : Page) : result bool :=
  match metadata resp with
  | MetaMissing => Ok false
  | MetaNull => Raise AttributeError
  | Meta b => Ok b
  end.

(** The [while True] loop of [drain_spending_by_award].  The script lists
    the answers to the requests for page 1, 2, ...; the second component
    counts the requests made. *)
Fixpoint drain_loop (script : list (result Page)) (rows : list (list cell))
  : result (list (list cell)) * nat :=
  match script with
  | [] => (Pending, O)
  | p :: rest =>
      match p with
      | Ok resp =>
          match results resp with
          | [] => (Ok rows, 1%nat)
          | _ =>
              let rows := rows ++ results resp in
              match hasNext resp with
              | Ok more =>
                  if negb more then (Ok rows, 1%nat)
                  else let (r, n) := drain_loop rest rows in (r, S n)
              | Raise e => (Raise e, 1%nat)
              | Pending => (Pending, 1%nat)
              end
          end
      | Raise e => (Raise e, 1%nat)
      | Pending => (Pending, 1%nat)
      end
  end.

(** [pd.DataFrame()]. *)
Definition empty_frame : DataFrame := {| columns := []; rows := [] |}.

(** [drain_spending_by_award]; [fields] are the keys of the result rows. *)
Definition drain_spending_by_award (fields : list string)
  (script : list (result Page)) : result DataFrame * nat :=
  let (r, n) := drain_loop script [] in
  (rows <- r ;;
   match rows with
   | [] => Ok empty_frame
   | _ => Ok (dedupe_minimal {| columns := fields; rows := rows |})
   end, n).

(** [df.empty]: one of the axes has length 0. *)
Definition df_empty (df : DataFrame) : bool :=
  match rows df, columns df with
  | [], _ | _, [] => true
  | _, _ => false
  end.

Inductive file_kind : Type := Parquet | Csv.

(** What [incremental_awards] did with one shard: skipped it for its
    group, found nothing after some requests, or wrote a table. *)
Inductive shard_event : Type :=
| UnknownGroup (sh : shard)
| NoResults (sh : shard) (requests : nat)
| Written (sh : shard) (requests : nat) (kind : file_kind) (df : DataFrame).

(** The file written for a non-empty table: [to_parquet] falls back to CSV
    when pyarrow is not installed. *)
Definition written_kind (have_pyarrow : bool) (fmt : string) : file_kind :=
  if String.eqb (PyStr.lower fmt) "parquet" then
    (if have_pyarrow then Parquet else Csv)
  else Csv.

Definition shard_group (sh : shard) : string := fst (fst (fst sh)).

Section Incremental.

(** The search endpoint: its answers to the successive pages of a shard. *)
Variable search : shard -> list (result Page).
Variable fields : list string.
Variable have_pyarrow : bool.
Variable fmt : string.

(** The body of the [for] loop of [incremental_awards], over the shards
    the generator yields. *)
Fixpoint write_shards (shards : list shard) : result unit * list shard_event :=
  match shards with
  | [] => (Ok tt, [])
  | sh :: rest =>
      if negb (known_group (shard_group sh)) then
        let (r, evs) := write_shards rest in (r, UnknownGroup sh :: evs)
      else
        match drain_spending_by_award fields (search sh) with
        | (Ok df, n) =>
            if df_empty df then
              let (r, evs) := write_shards rest in (r, NoResults sh n :: evs)
            else
              let (r, evs) := write_shards rest in
              (r, Written sh n (written_kind have_pyarrow fmt) df :: evs)
        | (Raise e, n) => (Raise e, [])
        | (Pending, n) => (Pending, [])
        end
  end.

(** [incremental_awards]: the shards are processed as they are yielded;
    when all of them went through, the call ends as the generator did
    ([None]: it is still running after [fuel] passes). *)
Definition incremental_awards (fuel : nat) (start_date end_date : datetime)
  (award_groups : list string) (agencies : option (list string)) (chunk_days : Z)
  : option (result unit) * list shard_event :=
  let (shards, fin) := shard_iter fuel start_date end_date award_groups agencies chunk_days in
  match write_shards shards with
  | (Ok _, evs) => (fin, evs)
  | (r, evs) => (Some r, evs)
  end.

End Incremental.

(** The successive sleeps of a retry loop grow by half, up to [cap]. *)
Fixpoint geometric (cap : Q) (ts : list Q) : Prop :=
  match ts with
  | [] => True
  | t1 :: rest =>
      match rest with
      | [] => True
      | t2 :: _ => t2 = Qmin (t1 * (3 # 2)) cap /\ geometric cap rest
      end
  end.

(** The replies after which the streaming loop goes on: anything but a 200
    whose body arrives whole or cannot be written. *)
Definition retried (g : http_reply * body_result) : bool :=
  match g with
  | (Status c, BodyComplete) | (Status c, BodyDiskError) => negb (c =? 200)
  | _ => true
  end.

(** Example inputs of the further properties. *)
Module Samples.

Definition september : datetime := _ymd2ord 2024 9 1.
Definition end_september : datetime := _ymd2ord 2024 9 30.

(** A backend that fails on every window longer than 8 days. *)
Definition fails_above_8 (s e : datetime) : result unit :=
  if _days_between s e >? 8 then Raise (RuntimeError BulkJobFailed) else Ok tt.

(** A connection that breaks on the full month. *)
Definition breaks_on_month (s e : datetime) : result unit :=
  if _days_between s e >? 15 then Raise TransportError else Ok tt.

Definition row (id name start : string) : list cell := [Some id; Some name; Some start].

Definition search_fields : list string := ["Award ID"; "Recipient Name"; "Start Date"]%string.

(** Two full pages and a last one; a fourth answer that is never asked for. *)
Definition three_pages : list (result Page) :=
  [ Ok {| results := [row "W91" "ACME" "2024-09-01"; row "N00" "INITECH" "2024-09-02"];
          metadata := Meta true |};
    Ok {| results := [row "W91" "ACME" "2024-09-01"]; metadata := Meta true |};
    Ok {| results := [row "F33" "GLOBEX" "2024-09-03"]; metadata := Meta false |};
    Raise TransportError ]%string.

(** The endpoint has rows for contracts only. *)
Definition contracts_only (sh : shard) : list (result Page) :=
  if String.eqb (shard_group sh) "contracts" then three_pages
  else [Ok {| results := []; metadata := Meta false |}].

End Samples.

(* ========================================================================= *)
(** * Properties *)
(* ========================================================================= *)

Lemma plus_days_ok (d n : Z) :
  -999999999 <= n <= 999999999 -> in_datetime_range (d + n) ->
  plus_days d n = Ok (d + n).
Proof.
  intros Hn Hd. unfold plus_days, timedelta, dt_add, in_datetime_rangeb.
  unfold in_datetime_range in Hd.
  replace ((-999999999 <=? n) && (n <=? 999999999)) with true
    by (symmetry; apply andb_true_iff; split; apply Z.leb_le; lia).
  cbn [bind].
  replace ((MINORDINAL <=? d + n) && (d + n <=? MAXORDINAL)) with true
    by (symmetry; apply andb_true_iff; split; apply Z.leb_le; lia).
  reflexivity.
Qed.

Lemma split_range_mid (s e : Z) :
  in_datetime_range s -> in_datetime_range e -> 2 <= _days_between s e ->
  _split_range s e = Ok [(s, s + (e - s) / 2); (s + (e - s) / 2 + 1, e)].
Proof.
  unfold in_datetime_range, MINORDINAL, MAXORDINAL, _days_between, days_diff.
  intros Hs He HD. unfold _split_range, days_diff.
  assert (Hq : 0 <= (e - s) / 2 <= e - s - 1).
  { split; [apply Z.div_pos; lia|].
    assert (2 * ((e - s) / 2) <= e - s) by (apply Z.mul_div_le; lia). lia. }
  rewrite plus_days_ok; cbn [bind];
    [| lia | unfold in_datetime_range, MINORDINAL, MAXORDINAL; lia].
  rewrite plus_days_ok; cbn [bind];
    [| lia | unfold in_datetime_range, MINORDINAL, MAXORDINAL; lia].
  reflexivity.
Qed.

(** C2.  For valid dates [s <= e] spanning at least two days, [_split_range]
    returns exactly two inclusive windows [(s, m)] and [(m + 1, e)]: the
    second starts the day after the first ends, every day of the original
    range lies in exactly one of them, and their lengths differ by at most
    one day. *)
Theorem split_range_partition (s e : Z) :
  in_datetime_range s -> in_datetime_range e -> s <= e ->
  2 <= _days_between s e ->
  exists m : Z,
    _split_range s e = Ok [(s, m); (m + 1, e)]
    /\ s <= m /\ m + 1 <= e
    /\ (forall d, in_window (s, e) d <-> in_window (s, m) d \/ in_window (m + 1, e) d)
    /\ (forall d, ~ (in_window (s, m) d /\ in_window (m + 1, e) d))
    /\ _days_between s m + _days_between (m + 1) e = _days_between s e
    /\ Z.abs (_days_between s m - _days_between (m + 1) e) <= 1.
Proof.
  intros Hs He Hse HD. exists (s + (e - s) / 2).
  split; [apply split_range_mid; assumption|].
  unfold _days_between, days_diff, in_window in *. cbn [fst snd].
  assert (H2 : 2 * ((e - s) / 2) <= e - s) by (apply Z.mul_div_le; lia).
  assert (H3 : e - s < 2 * ((e - s) / 2) + 2).
  { pose proof (Z.mod_pos_bound (e - s) 2 ltac:(lia)).
    pose proof (Z.div_mod (e - s) 2 ltac:(lia)). lia. }
  repeat split; try lia.
Qed.

(** The split of 2024-09-01..2024-09-30 is 09-01..09-15 and 09-16..09-30. *)
Lemma split_range_partition_witness :
  exists m : Z,
    _split_range (_ymd2ord 2024 9 1) (_ymd2ord 2024 9 30)
    = Ok [(_ymd2ord 2024 9 1, m); (m + 1, _ymd2ord 2024 9 30)]
    /\ _ymd2ord 2024 9 1 <= m /\ m + 1 <= _ymd2ord 2024 9 30
    /\ (forall d, in_window (_ymd2ord 2024 9 1, _ymd2ord 2024 9 30) d
                  <-> in_window (_ymd2ord 2024 9 1, m) d
                      \/ in_window (m + 1, _ymd2ord 2024 9 30) d)
    /\ (forall d, ~ (in_window (_ymd2ord 2024 9 1, m) d
                     /\ in_window (m + 1, _ymd2ord 2024 9 30) d))
    /\ _days_between (_ymd2ord 2024 9 1) m + _days_between (m + 1) (_ymd2ord 2024 9 30)
       = _days_between (_ymd2ord 2024 9 1) (_ymd2ord 2024 9 30)
    /\ Z.abs (_days_between (_ymd2ord 2024 9 1) m
              - _days_between (m + 1) (_ymd2ord 2024 9 30)) <= 1.
Proof.
  apply (split_range_partition (_ymd2ord 2024 9 1) (_ymd2ord 2024 9 30));
    vm_compute; try split; congruence.
Defined.

(* ------------------------------------------------------------------------- *)
(** ** The backfill driver *)
(* ------------------------------------------------------------------------- *)

(** Induction on call trees, the subcalls taken together. *)
Lemma call_rect_forall (P : call -> Prop) :
  (forall s e job cs, Forall P cs -> P (Call s e job cs)) ->
  forall c, P c.
Proof.
  intros step. fix IH 1. intros [s e job cs]. apply step.
  induction cs as [|c cs IHcs]; constructor; [apply IH | exact IHcs].
Qed.

Lemma every_call_impl (P Q : datetime -> datetime -> result unit -> list call -> Prop) :
  (forall s e job cs, P s e job cs -> Q s e job cs) ->
  forall c, every_call P c -> every_call Q c.
Proof.
  intros PQ c. induction c as [s e job cs IH] using call_rect_forall.
  cbn [every_call]. intros [Hroot Hsub]. split; [apply PQ; exact Hroot|].
  clear Hroot. induction IH as [|c cs Hc _ IHcs]; cbn [fold_right] in *; [exact I|].
  destruct Hsub as [H1 H2]. split; [apply Hc; exact H1 | apply IHcs; exact H2].
Qed.

(** The sizes of the two halves: the first has [ceil(D/2)] days, the second
    [floor(D/2)]. *)
Lemma halves_sizes (s e : Z) :
  2 <= _days_between s e ->
  let m := s + (e - s) / 2 in
  1 <= _days_between s m <= _days_between s e - 1
  /\ 1 <= _days_between (m + 1) e <= _days_between s e - 1
  /\ 2 * _days_between s m <= _days_between s e + 1
  /\ _days_between (m + 1) e <= _days_between s m
  /\ s <= m /\ m + 1 <= e.
Proof.
  unfold _days_between, days_diff. intros HD. cbv zeta.
  assert (H2 : 2 * ((e - s) / 2) <= e - s) by (apply Z.mul_div_le; lia).
  assert (H3 : e - s < 2 * ((e - s) / 2) + 2).
  { pose proof (Z.mod_pos_bound (e - s) 2 ltac:(lia)).
    pose proof (Z.div_mod (e - s) 2 ltac:(lia)). lia. }
  lia.
Qed.

Section DriverProperties.

Variable run_job : datetime -> datetime -> result unit.
Variable M : Z.
Hypothesis M_pos : 1 <= M.

Lemma call_ok_widen (s0 e0 s1 e1 : Z) (r : result unit) (c : call) :
  s0 <= s1 -> e1 <= e0 ->
  every_call (call_ok_below run_job M s1 e1 r) c ->
  every_call (call_ok_below run_job M s0 e0 r) c.
Proof.
  intros Hs He. apply every_call_impl. unfold call_ok_below.
  intros s e job cs (H1 & H2 & H3 & H4 & H5). repeat split; try lia; try assumption.
  - apply H5; assumption.
  - apply H5; assumption.
Qed.

(** A subtree whose attempt returned normally holds no failed job on a
    minimal window of which the failure had to be passed on. *)
Lemma call_ok_after_success (s0 e0 : Z) (r : result unit) (c : call) :
  every_call (call_ok_below run_job M s0 e0 (Ok tt)) c ->
  every_call (call_ok_below run_job M s0 e0 r) c.
Proof.
  apply every_call_impl. unfold call_ok_below.
  intros s e job cs (H1 & H2 & H3 & H4 & H5). repeat split; try assumption.
  - apply H5; assumption.
  - intros ex Hex Hwhen. destruct (H5 H) as [_ H6].
    specialize (H6 ex Hex Hwhen). discriminate.
Qed.

(** The texts that [_split_range] writes for a window inside the range of
    dates parse when the window starts in year 1000 or later. *)
Lemma strftime_parses (s e : Z) :
  s <= e ->
  FIRST_FOUR_DIGIT_DAY <= day_of (strftime s) ->
  four_digit_year (strftime s) = true /\ four_digit_year (strftime e) = true.
Proof.
  cbn. intros Hse Hs. split; apply Z.leb_le; lia.
Qed.

Lemma attempt_spec (fuel : nat) :
  forall ts te : date_text,
    in_datetime_range (day_of ts) -> in_datetime_range (day_of te) ->
    1 <= _days_between (day_of ts) (day_of te) ->
    _days_between (day_of ts) (day_of te) <= Z.of_nat fuel ->
    (FIRST_FOUR_DIGIT_DAY <= day_of ts ->
     four_digit_year ts = true /\ four_digit_year te = true) ->
    exists (r : result unit) (t : call),
      _attempt run_job M fuel ts te = Some (r, t)
      /\ (forall k : nat, _days_between (day_of ts) (day_of te) <= M * 2 ^ Z.of_nat k ->
                          (levels t <= k)%nat)
      /\ every_call (call_ok_below run_job M (day_of ts) (day_of te) r) t
      /\ (four_digit_year ts = true -> four_digit_year te = true ->
          _days_between (day_of ts) (day_of te) <= M ->
          forall ex, run_job (day_of ts) (day_of te) = Raise ex -> r = Raise ex).
Proof.
  induction fuel as [|fuel IH]; intros ts te Hs He HD Hfuel Htext; [lia|].
  cbn [_attempt].
  set (s := day_of ts) in *. set (e := day_of te) in *.
  assert (Hleaf : forall job r : result unit,
             job = run_job s e ->
             (forall ex, job = Raise ex ->
                FIRST_FOUR_DIGIT_DAY <= s \/ (forall why, ex <> RuntimeError why) ->
                r = Raise ex) ->
             (four_digit_year ts = true -> four_digit_year te = true ->
              _days_between s e <= M ->
              forall ex, job = Raise ex -> r = Raise ex) ->
             exists r' t, Some (r, Call s e job []) = Some (r', t)
               /\ (forall k : nat, _days_between s e <= M * 2 ^ Z.of_nat k -> (levels t <= k)%nat)
               /\ every_call (call_ok_below run_job M s e r') t
               /\ (four_digit_year ts = true -> four_digit_year te = true ->
                   _days_between s e <= M ->
                   forall ex, run_job s e = Raise ex -> r' = Raise ex)).
  { intros job r Hjob Hprop Hroot. exists r, (Call s e job []). split; [reflexivity|].
    split; [intros; cbn; lia|]. split.
    - cbn. split; [|exact I]. unfold call_ok_below.
      repeat split; try lia; try assumption.
    - rewrite <- Hjob. exact Hroot. }
  destruct (run_job s e) as [[]|ex|] eqn:Hjob;
    try (apply Hleaf; [reflexivity | intros; assumption | intros; assumption]).
  destruct ex as [why| | | | | | | |];
    try (apply Hleaf; [reflexivity | intros; assumption | intros; assumption]).
  unfold _days_between_text, _split_range_text, strptime_text.
  destruct (four_digit_year ts) eqn:Fs; cbn [bind].
  2:{ apply Hleaf; [reflexivity | | intros; discriminate].
      intros ex Hex [Hfirst|Hnot].
      - destruct (Htext Hfirst) as [? _]. discriminate.
      - injection Hex as <-. exfalso. exact (Hnot why eq_refl). }
  destruct (four_digit_year te) eqn:Fe; cbn [bind].
  2:{ apply Hleaf; [reflexivity | | intros; discriminate].
      intros ex Hex [Hfirst|Hnot].
      - destruct (Htext Hfirst) as [_ ?]. discriminate.
      - injection Hex as <-. exfalso. exact (Hnot why eq_refl). }
  fold s e.
  destruct (_days_between s e >? M) eqn:Hgt.
  2:{ apply Hleaf; [reflexivity | intros; assumption | intros; assumption]. }
  rewrite Z.gtb_ltb in Hgt. apply Z.ltb_lt in Hgt.
  assert (HD2 : 2 <= _days_between s e) by lia.
  rewrite (split_range_mid s e Hs He HD2). cbn [bind map fst snd].
  pose proof (halves_sizes s e HD2) as Hh. cbv zeta in Hh.
  set (m := s + (e - s) / 2) in *.
  destruct Hh as (Ha & Hb & Hceil & Hba & Hsm & Hme).
  assert (Hm : in_datetime_range m) by (unfold in_datetime_range in *; lia).
  assert (Hm1 : in_datetime_range (m + 1)) by (unfold in_datetime_range in *; lia).
  destruct (IH (strftime s) (strftime m) Hs Hm ltac:(cbn; lia) ltac:(cbn; lia)
              (strftime_parses s m Hsm))
    as (r1 & t1 & E1 & L1 & C1 & _).
  destruct (IH (strftime (m + 1)) (strftime e) Hm1 He ltac:(cbn; lia) ltac:(cbn; lia)
              (strftime_parses (m + 1) e Hme))
    as (r2 & t2 & E2 & L2 & C2 & _).
  cbn [day_of strftime] in L1, L2, C1, C2.
  assert (Hk : forall k : nat, _days_between s e <= M * 2 ^ Z.of_nat k ->
               exists k', k = S k' /\ _days_between s m <= M * 2 ^ Z.of_nat k'
                          /\ _days_between (m + 1) e <= M * 2 ^ Z.of_nat k').
  { intros [|k'] Hle; [cbn in Hle; lia|]. exists k'. split; [reflexivity|].
    rewrite Nat2Z.inj_succ, Z.pow_succ_r in Hle by lia. lia. }
  cbn [for_each]. rewrite E1.
  destruct r1 as [[]|ex1|].
  - (* the first half returned: the second half is attempted *)
    rewrite E2. exists r2, (Call s e (Raise (RuntimeError why)) [t1; t2]).
    split; [destruct r2 as [[]|ex2|]; reflexivity|]. split; [|split].
    + intros k Hle. destruct (Hk k Hle) as (k' & -> & Hk1 & Hk2).
      specialize (L1 k' Hk1). specialize (L2 k' Hk2). cbn. lia.
    + cbn [every_call fold_right]. split; [|split; [|split; [|exact I]]].
      * unfold call_ok_below. repeat split; try lia; try (symmetry; assumption).
      * apply call_ok_after_success.
        apply (call_ok_widen s e s m); [lia | lia | exact C1].
      * apply (call_ok_widen s e (m + 1) e); [lia | lia | exact C2].
    + intros; lia.
  - (* the first half raised: the loop ends there *)
    exists (Raise ex1), (Call s e (Raise (RuntimeError why)) [t1]).
    split; [reflexivity|]. split; [|split].
    + intros k Hle. destruct (Hk k Hle) as (k' & -> & Hk1 & Hk2).
      specialize (L1 k' Hk1). cbn. lia.
    + cbn [every_call fold_right]. split; [|split; [|exact I]].
      * unfold call_ok_below. repeat split; try lia; try (symmetry; assumption).
      * apply (call_ok_widen s e s m); [lia | lia | exact C1].
    + intros; lia.
  - exists Pending, (Call s e (Raise (RuntimeError why)) [t1]).
    split; [reflexivity|]. split; [|split].
    + intros k Hle. destruct (Hk k Hle) as (k' & -> & Hk1 & Hk2).
      specialize (L1 k' Hk1). cbn. lia.
    + cbn [every_call fold_right]. split; [|split; [|exact I]].
      * unfold call_ok_below. repeat split; try lia; try (symmetry; assumption).
      * apply (call_ok_widen s e s m); [lia | lia | exact C1].
    + intros; lia.
Qed.

End DriverProperties.

Lemma ceil_log2_ratio_bound (D M : Z) :
  1 <= D -> 1 <= M ->
  0 <= ceil_log2_ratio D M /\ D <= M * 2 ^ ceil_log2_ratio D M.
Proof.
  intros HD HM. unfold ceil_log2_ratio.
  set (a := (D + M - 1) / M).
  assert (Ha : 1 <= a).
  { subst a. apply Z.div_le_lower_bound; lia. }
  assert (HDa : D <= M * a).
  { subst a. pose proof (Z.mod_pos_bound (D + M - 1) M ltac:(lia)).
    pose proof (Z.div_mod (D + M - 1) M ltac:(lia)). lia. }
  split; [apply Z.log2_up_nonneg|].
  assert (Hpow : a <= 2 ^ Z.log2_up a).
  { destruct (Z.eq_dec a 1) as [->|Hne]; [cbn; lia|].
    apply Z.log2_up_spec. lia. }
  nia.
Qed.

(** [ceil_log2_of_ratio D M] is the integer [k] with
    [2^(k-1) < D / M <= 2^k], the powers written without fractions. *)
Lemma ceil_log2_of_ratio_spec (D M : Z) :
  1 <= D -> 1 <= M ->
  let k := ceil_log2_of_ratio D M in
  (0 <= k -> D <= M * 2 ^ k /\ (0 < k -> M * 2 ^ (k - 1) < D))
  /\ (k <= 0 -> D * 2 ^ (- k) <= M /\ M < D * 2 ^ (- k + 1)).
Proof.
  intros HD HM. unfold ceil_log2_of_ratio.
  destruct (D <=? M) eqn:HDM; cbv zeta.
  - apply Z.leb_le in HDM.
    set (q := M / D).
    assert (Hq : 1 <= q) by (subst q; apply Z.div_le_lower_bound; lia).
    assert (HqD : D * q <= M < D * (q + 1)).
    { subst q. pose proof (Z.mod_pos_bound M D ltac:(lia)).
      pose proof (Z.div_mod M D ltac:(lia)). lia. }
    pose proof (Z.log2_spec q ltac:(lia)) as [Hlo Hhi].
    pose proof (Z.log2_nonneg q) as Hj.
    set (j := Z.log2 q) in *.
    split.
    + intros Hk. assert (j = 0) as -> by lia. cbn. split; lia.
    + intros _. rewrite Z.opp_involutive.
      replace (Z.succ j) with (j + 1) in Hhi by lia.
      assert (0 < 2 ^ j) by (apply Z.pow_pos_nonneg; lia).
      split; nia.
  - apply Z.leb_gt in HDM.
    set (a := (D + M - 1) / M).
    assert (HDa : M * (a - 1) < D <= M * a).
    { subst a. pose proof (Z.mod_pos_bound (D + M - 1) M ltac:(lia)).
      pose proof (Z.div_mod (D + M - 1) M ltac:(lia)). lia. }
    assert (Ha : 2 <= a) by nia.
    pose proof (Z.log2_up_spec a ltac:(lia)) as [Hlo Hhi].
    assert (Hk1 : 1 <= Z.log2_up a).
    { pose proof (Z.log2_up_pos a ltac:(lia)). lia. }
    set (k := Z.log2_up a) in *.
    replace (Z.pred k) with (k - 1) in Hlo by lia.
    split.
    + intros _. split; [nia|]. intros _.
      assert (0 < 2 ^ (k - 1)) by (apply Z.pow_pos_nonneg; lia). nia.
    + intros Hk. lia.
Qed.

(** The bound of the levels, [max(0, ceil(log2(D/M)))]. *)
Lemma ceil_log2_of_ratio_clamped (D M : Z) :
  1 <= D -> 1 <= M ->
  Z.max 0 (ceil_log2_of_ratio D M) = ceil_log2_ratio D M.
Proof.
  intros HD HM. unfold ceil_log2_of_ratio, ceil_log2_ratio.
  destruct (D <=? M) eqn:HDM.
  - apply Z.leb_le in HDM.
    pose proof (Z.log2_nonneg (M / D)).
    assert (Ha : (D + M - 1) / M = 1).
    { symmetry. apply (Z.div_unique _ _ 1 (D - 1)); lia. }
    rewrite Ha. cbn. lia.
  - pose proof (Z.log2_up_nonneg ((D + M - 1) / M)). lia.
Qed.

(** C5, at concrete inputs.  On a request of one day with the default
    minimum window of 7 days the driver submits one job and does not
    split, zero levels, while [ceil(log2(1/7))] is -2.  On a request of
    fourteen days of year 999, where every job fails, the first window of
    seven days is not split, but what the driver raises is the
    [ValueError] of the date text 999-01-01 and not the failure of the
    job. *)
Lemma attempt_levels_and_propagation_fail :
  (exists t : call,
     _attempt Scripts.always_failing 7 1
       (typed (_ymd2ord 2024 9 1)) (typed (_ymd2ord 2024 9 1))
     = Some (Raise (RuntimeError BulkJobFailed), t)
     /\ levels t = 0%nat
     /\ ceil_log2_of_ratio (_days_between (_ymd2ord 2024 9 1) (_ymd2ord 2024 9 1)) 7 = -2
     /\ ~ (Z.of_nat (levels t)
           <= ceil_log2_of_ratio (_days_between (_ymd2ord 2024 9 1) (_ymd2ord 2024 9 1)) 7))
  /\ _attempt Scripts.always_failing 7 14
       (typed (_ymd2ord 999 1 1)) (typed (_ymd2ord 999 1 14))
     = Some (Raise ValueError,
             Call (_ymd2ord 999 1 1) (_ymd2ord 999 1 14) (Raise (RuntimeError BulkJobFailed))
               [Call (_ymd2ord 999 1 1) (_ymd2ord 999 1 7)
                  (Raise (RuntimeError BulkJobFailed)) []])
  /\ _days_between (_ymd2ord 999 1 1) (_ymd2ord 999 1 7) <= 7
  /\ Scripts.always_failing (_ymd2ord 999 1 1) (_ymd2ord 999 1 7)
     = Raise (RuntimeError BulkJobFailed).
Proof.
  split; [eexists; split; [vm_compute; reflexivity|]|]; vm_compute; intuition congruence.
Qed.

(** C5.  For valid dates spanning [D >= 1] days, typed with four-digit
    years, and [min_split_days = M >= 1], whatever the jobs do, [_attempt]
    returns as soon as its fuel covers [D] calls in depth; the levels of
    splitting below it are at most [max(0, ceil(log2(D/M)))]; every window
    it attempts has at least one day and lies in the original range; a
    window of at most [M] days is never split, and a job that raises on
    such a window is what the whole attempt raises when the window is the
    requested one or starts in year 1000 or later, or when the exception
    is not a [RuntimeError]. *)
Theorem attempt_terminates_within_log_levels
  (run_job : datetime -> datetime -> result unit) (M s e : Z) (fuel : nat) :
  in_datetime_range s -> in_datetime_range e ->
  1 <= _days_between s e -> 1 <= M ->
  _days_between s e <= Z.of_nat fuel ->
  exists (r : result unit) (t : call),
    _attempt run_job M fuel (typed s) (typed e) = Some (r, t)
    /\ Z.of_nat (levels t) <= Z.max 0 (ceil_log2_of_ratio (_days_between s e) M)
    /\ every_call (call_ok run_job M s e r) t.
Proof.
  intros Hs He HD HM Hfuel.
  destruct (attempt_spec run_job M HM fuel (typed s) (typed e) Hs He HD Hfuel
              (fun _ => conj eq_refl eq_refl))
    as (r & t & E & L & C & R).
  cbn [day_of typed four_digit_year] in L, C, R.
  exists r, t. split; [exact E|]. split.
  - rewrite (ceil_log2_of_ratio_clamped _ _ HD HM).
    destruct (ceil_log2_ratio_bound (_days_between s e) M HD HM) as [H0 Hle].
    specialize (L (Z.to_nat (ceil_log2_ratio (_days_between s e) M))).
    rewrite Z2Nat.id in L by exact H0. specialize (L Hle). lia.
  - revert C. apply every_call_impl. unfold call_ok, call_ok_below.
    intros s' e' job cs (H1 & H2 & H3 & H4 & H5). repeat split; try assumption.
    + apply H5; assumption.
    + intros ex Hex [[-> ->]|Hwhen].
      * apply (R eq_refl eq_refl H ex). rewrite <- H4. exact Hex.
      * destruct (H5 H) as [_ H6]. exact (H6 ex Hex Hwhen).
Qed.

(** A month of September on a backend where every job fails, with the
    default minimum window of 7 days. *)
Lemma attempt_terminates_within_log_levels_witness :
  exists (r : result unit) (t : call),
    _attempt Scripts.always_failing 7 30
      (typed (_ymd2ord 2024 9 1)) (typed (_ymd2ord 2024 9 30))
    = Some (r, t)
    /\ Z.of_nat (levels t)
       <= Z.max 0 (ceil_log2_of_ratio
                     (_days_between (_ymd2ord 2024 9 1) (_ymd2ord 2024 9 30)) 7)
    /\ every_call (call_ok Scripts.always_failing 7
                     (_ymd2ord 2024 9 1) (_ymd2ord 2024 9 30) r) t.
Proof.
  apply (attempt_terminates_within_log_levels Scripts.always_failing 7
           (_ymd2ord 2024 9 1) (_ymd2ord 2024 9 30) 30);
    vm_compute; try split; congruence.
Defined.

(** On that backend the driver submits 30, 15, 8 and 4 days and stops at
    the first window of at most 7 days: three levels, as
    [ceil(log2(30/7)) = 3]. *)
Example attempt_september_always_failing :
  _attempt Scripts.always_failing 7 30
    (typed (_ymd2ord 2024 9 1)) (typed (_ymd2ord 2024 9 30))
  = Some (Raise (RuntimeError BulkJobFailed),
          Call (_ymd2ord 2024 9 1) (_ymd2ord 2024 9 30) (Raise (RuntimeError BulkJobFailed))
            [Call (_ymd2ord 2024 9 1) (_ymd2ord 2024 9 15) (Raise (RuntimeError BulkJobFailed))
               [Call (_ymd2ord 2024 9 1) (_ymd2ord 2024 9 8) (Raise (RuntimeError BulkJobFailed))
                  [Call (_ymd2ord 2024 9 1) (_ymd2ord 2024 9 4)
                     (Raise (RuntimeError BulkJobFailed)) []]]])
  /\ ceil_log2_of_ratio 30 7 = 3.
Proof. split; vm_compute; reflexivity. Qed.

(* ------------------------------------------------------------------------- *)
(** ** The job runner *)
(* ------------------------------------------------------------------------- *)

(** The example of the specification: three exception-bearing messages in a
    row end the job with the backend-exception error although every status
    reads "running". *)
Example three_consecutive_exceptions_fail :
  _run_bulk_job_or_raise (Scripts.job_polling Scripts.three_in_a_row)
  = Raise (RuntimeError BackendException).
Proof. vm_compute. reflexivity. Qed.

(** While the answers are non-terminal, with messages that can be logged,
    the counter is never reset: the loop raises the backend-exception
    error as soon as the exception-bearing messages seen so far,
    consecutive or not, number three. *)
Lemma poll_loop_counts_all_exception_msgs (sr : StartResp) (js : JobScript)
  (polls : list (result StatusResp)) :
  forall cnt : nat,
    forallb nonterminal polls = true ->
    forallb loggable polls = true ->
    poll_loop sr js cnt polls
    = if ((3 <=? cnt + count_exception_msgs polls)
          && (1 <=? count_exception_msgs polls))%nat
      then Raise (RuntimeError BackendException) else Pending.
Proof.
  unfold count_exception_msgs.
  induction polls as [|p polls IH]; intros cnt Hnt Hlog.
  - cbn. rewrite andb_false_r. reflexivity.
  - cbn [forallb] in Hnt. apply andb_true_iff in Hnt as [Hp Hnt].
    cbn [forallb] in Hlog. apply andb_true_iff in Hlog as [Hl Hlog].
    destruct p as [stat| |]; try discriminate.
    cbn [nonterminal] in Hp. apply andb_true_iff in Hp as [Hfin Hfail].
    apply negb_true_iff in Hfin, Hfail.
    cbn [loggable] in Hl. apply negb_true_iff in Hl.
    cbn [poll_loop bind filter exception_bearing]. rewrite Hl.
    destruct (PyStr.contains "exception" (PyStr.lower (st_message stat))) eqn:Hhit.
    + cbn [List.length andb].
      destruct (3 <=? S cnt)%nat eqn:H3.
      * apply Nat.leb_le in H3.
        replace (3 <=? cnt + S _)%nat with true by (symmetry; apply Nat.leb_le; lia).
        reflexivity.
      * rewrite Hfin, Hfail. rewrite (IH (S cnt) Hnt Hlog).
        apply Nat.leb_gt in H3.
        set (c := List.length (filter exception_bearing polls)).
        replace (cnt + S c)%nat with (S cnt + c)%nat by lia.
        destruct c as [|c'].
        -- replace (3 <=? S cnt + 0)%nat with false
             by (symmetry; apply Nat.leb_gt; lia). reflexivity.
        -- cbn [Nat.leb andb]. rewrite andb_true_r. reflexivity.
    + cbn [andb]. rewrite Hfin, Hfail. apply IH; assumption.
Qed.

(** A message of white space only, in ASCII or not, stops the job runner at
    the line that logs it. *)
Example blank_message_raises_IndexError :
  let nbsp := String (ascii_of_nat 194) (String (ascii_of_nat 160) EmptyString) in
  poll_loop {| sr_file_name := Some "PrimeAwards_2024.zip"%string;
               sr_status_url := None; sr_file_url := None |}
    Scripts.good_job 0
    [Ok {| st_status := "finished"; st_message := " "; st_file_url := None |}]
  = Raise IndexError
  /\ blank_message nbsp = true
  /\ blank_message "" = false
  /\ blank_message " running " = false.
Proof. vm_compute. repeat split. Qed.

(** C1.  Three exception-bearing messages separated by clean polls, every
    status "running": the heuristic fires on the fifth poll, although no two
    of the messages are on consecutive polls. *)
Theorem exception_heuristic_fires_without_three_in_a_row :
  _run_bulk_job_or_raise (Scripts.job_polling Scripts.three_apart)
  = Raise (RuntimeError BackendException)
  /\ map exception_bearing Scripts.three_apart = [true; false; true; false; true]
  /\ forallb nonterminal Scripts.three_apart = true.
Proof. vm_compute. repeat split. Qed.



(* ------------------------------------------------------------------------- *)
(** ** Shard generation *)
(* ------------------------------------------------------------------------- *)

Lemma plus_days_inv (d n : Z) (r : result datetime) :
  plus_days d n = r ->
  (r = Ok (d + n) /\ in_datetime_range (d + n) /\ -999999999 <= n <= 999999999)
  \/ (r = Raise OverflowError
      /\ (~ in_datetime_range (d + n) \/ ~ -999999999 <= n <= 999999999)).
Proof.
  intros <-. unfold plus_days, timedelta, dt_add, in_datetime_rangeb, in_datetime_range.
  destruct ((-999999999 <=? n) && (n <=? 999999999)) eqn:Hn; cbn [bind].
  - apply andb_true_iff in Hn as [Hn1 Hn2]. apply Z.leb_le in Hn1, Hn2.
    destruct ((MINORDINAL <=? d + n) && (d + n <=? MAXORDINAL)) eqn:Hd.
    + apply andb_true_iff in Hd as [Hd1 Hd2]. apply Z.leb_le in Hd1, Hd2.
      left. repeat split; assumption.
    + right. split; [reflexivity|]. left. intros [Hd1 Hd2].
      apply Z.leb_le in Hd1, Hd2. rewrite Hd1, Hd2 in Hd. discriminate.
  - right. split; [reflexivity|]. right. intros [Hn1 Hn2].
    apply Z.leb_le in Hn1, Hn2. rewrite Hn1, Hn2 in Hn. discriminate.
Qed.

(** The values yielded are those of the windows, window after window. *)
Lemma shard_loop_by_window {A : Type} (yield : datetime -> datetime -> list A)
  (chunk_days end_ : Z) (fuel : nat) :
  forall current : Z,
    shard_loop yield fuel current end_ chunk_days
    = (flat_map (fun w => yield (fst w) (snd w))
         (fst (shard_windows fuel current end_ chunk_days)),
       snd (shard_windows fuel current end_ chunk_days)).
Proof.
  unfold shard_windows.
  induction fuel as [|fuel IH]; intros current; [reflexivity|].
  cbn [shard_loop].
  destruct (current <=? end_); [|reflexivity].
  destruct (plus_days current (chunk_days - 1)) as [x|ex|]; try reflexivity.
  destruct (plus_days (Z.min x end_) 1) as [next|ex|];
    try (cbn; rewrite app_nil_r; reflexivity).
  rewrite (IH next).
  destruct (shard_loop (fun s e => [(s, e)]) fuel next end_ chunk_days) as [ws fin].
  cbn. reflexivity.
Qed.

(** With a positive chunk, when the date at which the last window would
    end without the clamp, [current + chunk_days * K + chunk_days - 1] for
    [K = (end - current) / chunk_days], is still a date, every window is
    yielded: the windows tile the range, each with at most [chunk_days]
    days, and the loop ends, normally or at the step past the last
    window. *)
Lemma shard_windows_tile (chunk_days end_ : Z) (fuel : nat) :
  1 <= chunk_days -> end_ <= MAXORDINAL ->
  forall current : Z,
    MINORDINAL <= current <= end_ + 1 ->
    (current <= end_ ->
     current + chunk_days * ((end_ - current) / chunk_days) + chunk_days - 1
     <= MAXORDINAL) ->
    end_ + 1 - current < Z.of_nat fuel ->
    exists (ws : list window) (fin : result unit),
      shard_windows fuel current end_ chunk_days = (ws, Some fin)
      /\ tiles current ws end_
      /\ Forall (fun w => _days_between (fst w) (snd w) <= chunk_days) ws.
Proof.
  intros Hchunk Hend. unfold shard_windows, MINORDINAL, MAXORDINAL in *.
  induction fuel as [|fuel IH]; intros current Hcur Hlast Hfuel; [lia|].
  cbn [shard_loop].
  destruct (current <=? end_) eqn:Hle.
  2:{ apply Z.leb_gt in Hle. exists [], (Ok tt). split; [reflexivity|].
      split; [cbn; lia | constructor]. }
  apply Z.leb_le in Hle. specialize (Hlast Hle).
  assert (HK : 0 <= (end_ - current) / chunk_days) by (apply Z.div_pos; lia).
  rewrite plus_days_ok
    by (unfold in_datetime_range, MINORDINAL, MAXORDINAL; nia).
  assert (Hwin : _days_between current (Z.min (current + (chunk_days - 1)) end_)
                 <= chunk_days)
    by (unfold _days_between, days_diff; lia).
  destruct (plus_days_inv (Z.min (current + (chunk_days - 1)) end_) 1 _ eq_refl)
    as [(-> & Hnext & _) | (-> & [Hbad | Hbad])]; [| |lia].
  - unfold in_datetime_range, MINORDINAL, MAXORDINAL in Hnext.
    destruct (IH (Z.min (current + (chunk_days - 1)) end_ + 1)) as (ws & fin & E & T & F);
      [lia | | lia |].
    + intros Hmore.
      assert (Hmin : Z.min (current + (chunk_days - 1)) end_ + 1 = current + chunk_days)
        by lia.
      rewrite Hmin.
      replace (end_ - (current + chunk_days))
        with (end_ - current + (-1) * chunk_days) by lia.
      rewrite Z.div_add by lia. lia.
    + rewrite E. exists ((current, Z.min (current + (chunk_days - 1)) end_) :: ws), fin.
      split; [reflexivity|]. split.
      * cbn [tiles fst snd]. repeat split; try lia. exact T.
      * constructor; [exact Hwin | exact F].
  - (* the step past the last window leaves the calendar *)
    unfold in_datetime_range, MINORDINAL, MAXORDINAL in Hbad.
    exists [(current, Z.min (current + (chunk_days - 1)) end_)], (Raise OverflowError).
    split; [reflexivity|]. split.
    + cbn [tiles fst snd]. repeat split; lia.
    + constructor; [exact Hwin | constructor].
Qed.

(** In the other case the date arithmetic raises before the window that
    holds the end date is yielded. *)
Lemma shard_windows_overflow (chunk_days end_ : Z) (fuel : nat) :
  1 <= chunk_days -> end_ <= MAXORDINAL ->
  forall current : Z,
    MINORDINAL <= current <= end_ ->
    MAXORDINAL
    < current + chunk_days * ((end_ - current) / chunk_days) + chunk_days - 1 ->
    end_ + 1 - current < Z.of_nat fuel ->
    exists ws : list window,
      shard_windows fuel current end_ chunk_days = (ws, Some (Raise OverflowError))
      /\ Forall (fun w => snd w < end_) ws.
Proof.
  intros Hchunk Hend. unfold shard_windows, MINORDINAL, MAXORDINAL in *.
  induction fuel as [|fuel IH]; intros current Hcur Hlast Hfuel; [lia|].
  cbn [shard_loop].
  replace (current <=? end_) with true by (symmetry; apply Z.leb_le; lia).
  destruct (plus_days_inv current (chunk_days - 1) _ eq_refl)
    as [(-> & Hx & _) | (-> & _)].
  2:{ exists []. split; [reflexivity | constructor]. }
  unfold in_datetime_range, MINORDINAL, MAXORDINAL in Hx.
  assert (HK : 1 <= (end_ - current) / chunk_days).
  { assert (0 <= (end_ - current) / chunk_days) by (apply Z.div_pos; lia). nia. }
  assert (Hroom : chunk_days <= end_ - current).
  { pose proof (Z.mul_div_le (end_ - current) chunk_days ltac:(lia)). nia. }
  replace (Z.min (current + (chunk_days - 1)) end_)
    with (current + (chunk_days - 1)) by lia.
  rewrite plus_days_ok
    by (unfold in_datetime_range, MINORDINAL, MAXORDINAL; lia).
  destruct (IH (current + (chunk_days - 1) + 1)) as (ws & E & F); [lia | | lia |].
  - replace (end_ - (current + (chunk_days - 1) + 1))
      with (end_ - current + (-1) * chunk_days) by lia.
    rewrite Z.div_add by lia. lia.
  - rewrite E. eexists. split; [reflexivity|].
    cbn [app]. constructor; [cbn [snd]; lia | exact F].
Qed.

(** Windows that tile a range contain each of its days exactly once, and no
    other day. *)
Lemma tiles_cover_once (ws : list window) (to d : Z) :
  forall from : Z,
    tiles from ws to ->
    from <= to + 1
    /\ covering ws d = if in_windowb d (from, to) then 1%nat else 0%nat.
Proof.
  unfold covering, in_windowb. cbn [fst snd].
  induction ws as [|[a b] ws IH]; intros from Ht; cbn [tiles fst snd] in Ht.
  - subst from. split; [lia|]. cbn.
    destruct (to + 1 <=? d) eqn:H1; destruct (d <=? to) eqn:H2; try reflexivity.
    apply Z.leb_le in H1, H2. lia.
  - destruct Ht as (-> & Hab & Ht). destruct (IH (b + 1) Ht) as [Hb Hc].
    split; [lia|]. cbn [filter fst snd].
    destruct (from <=? d) eqn:H1; destruct (d <=? b) eqn:H2;
      destruct (b + 1 <=? d) eqn:H3; destruct (d <=? to) eqn:H4;
      cbn [andb List.length] in *; rewrite ?Hc; try reflexivity;
      repeat match goal with
             | H : (_ <=? _) = true |- _ => apply Z.leb_le in H
             | H : (_ <=? _) = false |- _ => apply Z.leb_gt in H
             end; lia.
Qed.






(** C7, at a concrete input.  A chunk of 4,000,000 days on the single day
    2024-09-01 makes the first date addition overflow: the generator raises
    before it yields anything, and the day of the range is in no window. *)
Lemma shard_iter_overflows :
  shard_iter 3 (_ymd2ord 2024 9 1) (_ymd2ord 2024 9 1) ["contracts"%string] None 4000000
  = ([], Some (Raise OverflowError))
  /\ covering (fst (shard_windows 3 (_ymd2ord 2024 9 1) (_ymd2ord 2024 9 1) 4000000))
       (_ymd2ord 2024 9 1) = 0%nat
  /\ in_windowb (_ymd2ord 2024 9 1) (_ymd2ord 2024 9 1, _ymd2ord 2024 9 1) = true.
Proof. vm_compute. repeat split. Qed.

(** With the end date 9999-12-31 the windows are all yielded, and it is the
    step past the last one that raises; a chunk that reaches 9999-12-31
    from 2024-09-01 gives one window, and the generator is exhausted. *)
Example shard_iter_up_to_last_date :
  shard_iter 5 (_ymd2ord 9999 12 30) (_ymd2ord 9999 12 31) ["contracts"%string] None 1
  = ([("contracts"%string, _ymd2ord 9999 12 30, _ymd2ord 9999 12 30, None);
      ("contracts"%string, _ymd2ord 9999 12 31, _ymd2ord 9999 12 31, None)],
     Some (Raise OverflowError))
  /\ shard_iter 5 (_ymd2ord 2024 9 1) (_ymd2ord 2024 9 10) ["contracts"%string] None
       (MAXORDINAL - _ymd2ord 2024 9 1 + 1)
     = ([("contracts"%string, _ymd2ord 2024 9 1, _ymd2ord 2024 9 10, None)],
        Some (Ok tt)).
Proof. vm_compute. split; reflexivity. Qed.

(** The example of the specification: ten days of September 2024 in chunks
    of seven days. *)
Example shard_iter_september :
  shard_iter 3 (_ymd2ord 2024 9 1) (_ymd2ord 2024 9 10) ["contracts"%string] None 7
  = ([("contracts"%string, _ymd2ord 2024 9 1, _ymd2ord 2024 9 7, None);
      ("contracts"%string, _ymd2ord 2024 9 8, _ymd2ord 2024 9 10, None)],
     Some (Ok tt))
  /\ strptime 2024 9 1 = Some (_ymd2ord 2024 9 1)
  /\ strptime 2024 9 10 = Some (_ymd2ord 2024 9 10).
Proof. vm_compute. repeat split. Qed.

(** C7, as the code has it.  For valid dates [start <= end], a non-empty
    list of groups and [chunk_days >= 1] such that the date at which the
    last window would end without the clamp,
    [start + chunk_days * K + chunk_days - 1] for
    [K = (end - start) / chunk_days], is still a date (not after
    9999-12-31), the generator ends after one pass per window; its windows
    are consecutive and tile [start..end] (each day of the range is in
    exactly one window, no other day is in any), each has at most
    [chunk_days] days, and the shards yielded are, window after window,
    one per pair of a group and an agency (or the single [None] when no
    agencies are given). *)
Theorem shard_iter_windows_tile_range
  (start_date end_date chunk_days : Z) (groups : list string)
  (agencies : option (list string)) (fuel : nat) :
  in_datetime_range start_date -> in_datetime_range end_date ->
  start_date <= end_date -> 1 <= chunk_days -> groups <> [] ->
  start_date + chunk_days * ((end_date - start_date) / chunk_days) + chunk_days - 1
  <= MAXORDINAL ->
  _days_between start_date end_date < Z.of_nat fuel ->
  exists (ws : list window) (fin : result unit),
    shard_iter fuel start_date end_date groups agencies chunk_days
    = (flat_map (fun w => shards_of_window groups (agencies_or_none agencies)
                            (fst w) (snd w)) ws,
       Some fin)
    /\ tiles start_date ws end_date
    /\ Forall (fun w => _days_between (fst w) (snd w) <= chunk_days) ws
    /\ forall d : Z,
         covering ws d = if in_windowb d (start_date, end_date) then 1%nat else 0%nat.
Proof.
  intros Hs He Hse Hchunk Hgroups Hmax Hfuel.
  unfold in_datetime_range, _days_between, days_diff in *.
  destruct (shard_windows_tile chunk_days end_date fuel Hchunk ltac:(lia) start_date
              ltac:(lia) (fun _ => Hmax) ltac:(lia)) as (ws & fin & E & T & F).
  exists ws, fin. unfold shard_iter. rewrite shard_loop_by_window, E. cbn [fst snd].
  replace (groups_or_default groups) with groups
    by (destruct groups; [contradiction | reflexivity]).
  repeat split; try assumption.
  intros d. apply (tiles_cover_once ws end_date d start_date T).
Qed.

Lemma shard_iter_windows_tile_range_witness :
  exists (ws : list window) (fin : result unit),
    shard_iter 11 (_ymd2ord 2024 9 1) (_ymd2ord 2024 9 10) ["contracts"%string] None 7
    = (flat_map (fun w => shards_of_window ["contracts"%string]
                            (agencies_or_none None) (fst w) (snd w)) ws,
       Some fin)
    /\ tiles (_ymd2ord 2024 9 1) ws (_ymd2ord 2024 9 10)
    /\ Forall (fun w => _days_between (fst w) (snd w) <= 7) ws
    /\ forall d : Z,
         covering ws d
         = if in_windowb d (_ymd2ord 2024 9 1, _ymd2ord 2024 9 10) then 1%nat else 0%nat.
Proof.
  apply (shard_iter_windows_tile_range (_ymd2ord 2024 9 1) (_ymd2ord 2024 9 10) 7
           ["contracts"%string] None 11);
    vm_compute; try split; congruence.
Defined.



(* ------------------------------------------------------------------------- *)
(** ** The rate limiter *)
(* ------------------------------------------------------------------------- *)

Section RateLimiterProperties.

Local Open Scope Q_scope.

(** One call: it returns no earlier than [min_interval] after the
    previous return stored in [_last], and no earlier than it was made. *)
Lemma wait_returns_late_enough (self : RateLimiter) (clock lag : Q) :
  0 <= lag -> _last self <= clock ->
  min_interval (fst (wait self clock lag)) = min_interval self
  /\ _last (fst (wait self clock lag)) = snd (wait self clock lag)
  /\ _last self + min_interval self <= snd (wait self clock lag)
  /\ clock <= snd (wait self clock lag).
Proof.
  intros Hlag Hmono. unfold wait. cbn [fst snd min_interval _last].
  destruct (Qlt_le_dec (clock - _last self) (min_interval self)) as [Hlt|Hge];
    repeat split; try reflexivity; lra.
Qed.

Lemma wait_calls_spaced (calls : list (Q * Q)) :
  forall (self : RateLimiter) (clock : Q),
    _last self <= clock -> durations calls ->
    spaced (min_interval self) (wait_calls self clock calls)
    /\ match wait_calls self clock calls with
       | [] => True
       | t :: _ => _last self + min_interval self <= t /\ clock <= t
       end.
Proof.
  unfold durations.
  induction calls as [|[gap lag] calls IH]; intros self clock Hmono Hdur;
    [split; exact I|].
  inversion Hdur as [|c cs [Hgap Hlag] Hrest]; subst. cbn [fst snd] in Hgap, Hlag.
  cbn [wait_calls].
  destruct (wait_returns_late_enough self (clock + gap) lag Hlag ltac:(lra))
    as (Hmi & Hlast & Hlate & Hclock).
  destruct (wait self (clock + gap) lag) as [self' t] eqn:Hw. cbn [fst snd] in *.
  destruct (IH self' t ltac:(rewrite Hlast; lra) Hrest) as [Hsp Hhd].
  rewrite Hmi in Hsp, Hhd. rewrite Hlast in Hhd.
  split; [|split; lra].
  cbn [spaced].
  destruct (wait_calls self' t calls) as [|t2 ts]; [exact I|].
  split; [apply Hhd | exact Hsp].
Qed.

Lemma last_cons_default {A : Type} (l : list A) :
  forall x d : A, last (x :: l) d = last l x.
Proof.
  induction l as [|y l IH]; intros x d; [reflexivity|].
  change (last (x :: y :: l) d) with (last (y :: l) d).
  rewrite (IH y d), (IH y x). reflexivity.
Qed.

Lemma spaced_total (d : Q) (ts : list Q) :
  0 <= d ->
  forall t : Q,
    spaced d (t :: ts) ->
    inject_Z (Z.of_nat (List.length ts)) * d <= last ts t - t.
Proof.
  intros Hd. induction ts as [|t2 ts IH]; intros t Hsp.
  - cbn [List.length last]. change (inject_Z (Z.of_nat 0)) with 0. lra.
  - cbn [spaced] in Hsp. destruct Hsp as [H12 Hsp].
    specialize (IH t2 Hsp). rewrite last_cons_default.
    cbn [List.length]. rewrite Nat2Z.inj_succ, <- Z.add_1_r, inject_Z_plus.
    change (inject_Z 1) with 1. lra.
Qed.

Lemma min_interval_init (rps : Q) :
  0 < rps ->
  0 < min_interval (RateLimiter_init rps)
  /\ (1 # 10 <= rps -> min_interval (RateLimiter_init rps) == 1 / rps)
  /\ (rps < 1 # 10 -> min_interval (RateLimiter_init rps) == 10).
Proof.
  intros Hrps. cbn [RateLimiter_init min_interval].
  assert (Hmax : Qmax rps (1 # 10) == rps \/ Qmax rps (1 # 10) == 1 # 10).
  { destruct (Q.max_spec rps (1 # 10)) as [[_ H]|[_ H]]; [right|left]; exact H. }
  assert (Hpos : 0 < Qmax rps (1 # 10)).
  { pose proof (Q.le_max_r rps (1 # 10)). lra. }
  split; [|split].
  - unfold Qdiv. rewrite Qmult_1_l. apply Qinv_lt_0_compat. exact Hpos.
  - intros Hge. rewrite (Q.max_l rps (1 # 10)) by exact Hge. reflexivity.
  - intros Hlt. rewrite (Q.max_r rps (1 # 10)) by lra. reflexivity.
Qed.

End RateLimiterProperties.

(** C9, at a concrete input.  With [rps = 0.05] the interval is clamped to
    10 seconds: two calls in a row return 10 seconds apart, not the
    [1 / rps = 20] seconds of the claim. *)
Lemma slow_rate_is_clamped :
  let returns := wait_calls (RateLimiter_init (1 # 20)) 1000 [(0, 0); (0, 0)]%Q in
  (last returns 0 - hd 0 returns == 10)%Q
  /\ ~ ((2 - 1) * (1 / (1 # 20)) <= last returns 0 - hd 0 returns)%Q.
Proof.
  vm_compute. split; [reflexivity | intros H; apply H; reflexivity].
Qed.

Lemma wait_calls_length (calls : list (Q * Q)) :
  forall (self : RateLimiter) (clock : Q),
    List.length (wait_calls self clock calls) = List.length calls.
Proof.
  induction calls as [|[gap lag] calls IH]; intros self clock; [reflexivity|].
  cbn [wait_calls]. destruct (wait self (clock + gap) lag) as [self' t].
  cbn [List.length]. rewrite IH. reflexivity.
Qed.

(** C9, as the code has it.  On a clock that [time.sleep] advances, for
    every rate [rps > 0], [N] consecutive calls of [wait] on one limiter
    (whatever the non-negative time spent between and inside them) return
    at least [1 / max(rps, 0.1)] seconds apart, so the last returns at
    least [(N - 1) / max(rps, 0.1)] seconds after the first was made.  The
    interval is [1 / rps] when [rps >= 0.1] and 10 seconds below. *)
Theorem wait_calls_are_spaced (rps clock0 : Q) (calls : list (Q * Q)) :
  (0 < rps)%Q -> (0 <= clock0)%Q -> durations calls ->
  let interval := (1 / Qmax rps (1 # 10))%Q in
  let returns := wait_calls (RateLimiter_init rps) clock0 calls in
  spaced interval returns
  /\ ((inject_Z (Z.of_nat (List.length calls)) - 1) * interval
      <= last returns clock0 - clock0)%Q
  /\ ((1 # 10 <= rps)%Q -> (interval == 1 / rps)%Q)
  /\ ((rps < 1 # 10)%Q -> (interval == 10)%Q).
Proof.
  intros Hrps Hclock Hdur. cbv zeta.
  destruct (min_interval_init rps Hrps) as (Hpos & Hfast & Hslow).
  cbn [RateLimiter_init min_interval] in Hpos, Hfast, Hslow.
  destruct (wait_calls_spaced calls (RateLimiter_init rps) clock0 Hclock Hdur)
    as [Hsp Hhd].
  cbn [RateLimiter_init min_interval _last] in Hsp, Hhd.
  pose proof (wait_calls_length calls (RateLimiter_init rps) clock0) as Hlen.
  repeat split; try assumption.
  destruct (wait_calls (RateLimiter_init rps) clock0 calls) as [|t ts].
  - rewrite <- Hlen. cbn [List.length last].
    change (inject_Z (Z.of_nat 0)) with 0%Q. lra.
  - rewrite <- Hlen. rewrite last_cons_default.
    pose proof (spaced_total (1 / Qmax rps (1 # 10))%Q ts ltac:(lra) t Hsp) as Htot.
    cbn [List.length]. rewrite Nat2Z.inj_succ, <- Z.add_1_r, inject_Z_plus.
    change (inject_Z 1) with 1%Q. lra.
Qed.

Lemma wait_calls_are_spaced_witness :
  let interval := (1 / Qmax 3 (1 # 10))%Q in
  let returns := wait_calls (RateLimiter_init 3) 1000 [(0, 0); (1 # 10, 0); (2, 1 # 100)]%Q in
  spaced interval returns
  /\ ((inject_Z (Z.of_nat (List.length [(0, 0); (1 # 10, 0); (2, 1 # 100)]%Q)) - 1) * interval
      <= last returns 1000 - 1000)%Q
  /\ ((1 # 10 <= 3)%Q -> (interval == 1 / 3)%Q)
  /\ ((3 < 1 # 10)%Q -> (interval == 10)%Q).
Proof.
  apply (wait_calls_are_spaced 3 1000 [(0, 0); (1 # 10, 0); (2, 1 # 100)]%Q).
  - reflexivity.
  - discriminate.
  - repeat constructor; cbn; discriminate.
Defined.

(* ------------------------------------------------------------------------- *)
(** ** The HTTP client wrapper *)
(* ------------------------------------------------------------------------- *)

(** C3, at a concrete input.  A 503 answer makes [raise_for_status] raise
    [HTTPStatusError], which is an [httpx.HTTPError]: the decorator waits
    and issues the request again, and the caller gets the JSON of the
    second answer instead of the error. *)
Lemma status_error_is_retried :
  _request_body (reply Scripts.first_try) = Raise (HTTPStatusError 503)
  /\ fst (_request [Scripts.first_try; Scripts.json_try])
     = Ok [("status", "running")]%string
  /\ List.length (snd (_request [Scripts.first_try; Scripts.json_try])) = 1%nat.
Proof. vm_compute. repeat split. Qed.

(** C3, as the code has it.  A response whose status is not 2xx makes the
    body raise [HTTPStatusError], and a connection or timeout error
    surfaces as a transport error; both are instances of [httpx.HTTPError].
    On any such exception the wrapper retries after a wait of at most
    [2^n] seconds while less than 180 seconds have elapsed, and re-raises
    once 180 seconds have elapsed.  Any other exception is raised at once,
    and a successful try returns at once. *)
Theorem request_retries_every_HTTPError :
  (forall resp : Response,
      ~ (200 <= resp_status resp < 300) ->
      _request_body (NetResponse resp) = Raise (HTTPStatusError (resp_status resp))
      /\ is_HTTPError (HTTPStatusError (resp_status resp)) = true)
  /\ (_request_body NetError = Raise TransportError
      /\ is_HTTPError TransportError = true)
  /\ (forall (n : nat) (a : attempt) (rest : list attempt) (e : exn),
         _request_body (reply a) = Raise e -> is_HTTPError e = true ->
         ((elapsed a < max_time)%Q ->
          _request_from n (a :: rest)
          = (fst (_request_from (S n) rest),
             Qmin (jitter a * inject_Z (2 ^ Z.of_nat n)) (max_time - elapsed a)
             :: snd (_request_from (S n) rest)))
         /\ ((max_time <= elapsed a)%Q ->
             _request_from n (a :: rest) = (Raise e, [])))
  /\ (forall (n : nat) (a : attempt) (rest : list attempt) (e : exn),
         _request_body (reply a) = Raise e -> is_HTTPError e = false ->
         _request_from n (a :: rest) = (Raise e, []))
  /\ (forall (n : nat) (a : attempt) (rest : list attempt) (d : json_dict),
         _request_body (reply a) = Ok d ->
         _request_from n (a :: rest) = (Ok d, [])).
Proof.
  repeat apply conj.
  - intros resp Hst. cbn [_request_body]. unfold raise_for_status.
    replace ((200 <=? resp_status resp) && (resp_status resp <? 300)) with false.
    + split; reflexivity.
    + symmetry. apply andb_false_iff.
      destruct (Z.leb_spec 200 (resp_status resp)); [right|left; reflexivity].
      apply Z.ltb_ge. lia.
  - reflexivity.
  - reflexivity.
  - intros n a rest e Hbody Hhttp. split.
    + intros Hlt. cbn [_request_from]. rewrite Hbody, Hhttp.
      destruct (Qle_bool max_time (elapsed a)) eqn:Hle.
      * apply Qle_bool_iff in Hle. lra.
      * destruct (_request_from (S n) rest). reflexivity.
    + intros Hge. cbn [_request_from]. rewrite Hbody, Hhttp.
      apply Qle_bool_iff in Hge. rewrite Hge. reflexivity.
  - intros n a rest e Hbody Hhttp. cbn [_request_from]. rewrite Hbody, Hhttp.
    reflexivity.
  - intros n a rest d Hbody. cbn [_request_from]. rewrite Hbody. reflexivity.
Qed.

(* ------------------------------------------------------------------------- *)
(** ** The streamed fetch *)
(* ------------------------------------------------------------------------- *)

(** Whatever the status of a response other than 200, one pass of the
    streaming loop ends in the sleep: the [HTTPStatusError] raised in the
    last branch is caught by the [except httpx.HTTPError] of the same
    [try]. *)
Lemma fetch_once_retries_every_status (c : Z) (b : body_result) :
  c <> 200 -> fetch_once (Status c, b) = Ok false.
Proof.
  intros Hc. unfold fetch_once. cbn [fst snd].
  replace (c =? 200) with false by (symmetry; apply Z.eqb_neq; exact Hc).
  destruct ((c =? 403) || (c =? 404) || (c =? 429) || ((500 <=? c) && (c <? 600)));
    [reflexivity|].
  unfold raise_for_status.
  destruct ((200 <=? c) && (c <? 300)); reflexivity.
Qed.

(** C8.  The file server answers 400, then 204, then 200: the download
    does not fail on the 400, it sleeps 2 and 3 seconds and ends normally
    on the third request. *)
Theorem fetch_loop_retries_unlisted_status :
  fetch_once (Status 400, BodyComplete) = Ok false
  /\ fst (fetch_loop Scripts.bad_request_then_file 2) = Ok tt
  /\ map Qred (snd (fetch_loop Scripts.bad_request_then_file 2)) = [2; 3]%Q
  /\ _download_file {| probes := [(Status 206, 0%Q)];
                       gets := Scripts.bad_request_then_file |} = Ok tt.
Proof. vm_compute. repeat split. Qed.

(* ------------------------------------------------------------------------- *)
(** ** Minimal deduplication *)
(* ------------------------------------------------------------------------- *)

Section DropSeen.

Variable key : list cell -> list cell.

Lemma drop_seen_subseq (rs : list (list cell)) :
  forall seen, Subseq (drop_seen key seen rs) rs.
Proof.
  induction rs as [|r rs IH]; intros seen; cbn [drop_seen]; [constructor|].
  destruct (in_dec key_eq_dec (key r) seen); constructor; apply IH.
Qed.

Lemma drop_seen_fresh (rs : list (list cell)) :
  forall seen r, In r (drop_seen key seen rs) -> ~ In (key r) seen.
Proof.
  induction rs as [|x rs IH]; intros seen r Hin; cbn [drop_seen] in Hin; [contradiction|].
  destruct (in_dec key_eq_dec (key x) seen) as [Hseen|Hnew].
  - apply (IH seen r Hin).
  - destruct Hin as [->|Hin]; [exact Hnew|].
    intros Hs. apply (IH (key x :: seen) r Hin). right. exact Hs.
Qed.

Lemma drop_seen_NoDup (rs : list (list cell)) :
  forall seen, NoDup (map key (drop_seen key seen rs)).
Proof.
  induction rs as [|x rs IH]; intros seen; cbn [drop_seen]; [constructor|].
  destruct (in_dec key_eq_dec (key x) seen) as [Hseen|Hnew]; [apply IH|].
  cbn [map]. constructor; [|apply IH].
  intros Hin. apply in_map_iff in Hin as (r & Hk & Hr).
  apply (drop_seen_fresh rs (key x :: seen) r Hr). left. symmetry. exact Hk.
Qed.

Lemma drop_seen_first (rs : list (list cell)) :
  forall seen r,
    In r (drop_seen key seen rs) -> first_with_key key rs r.
Proof.
  induction rs as [|x rs IH]; intros seen r Hin; cbn [drop_seen] in Hin; [contradiction|].
  destruct (in_dec key_eq_dec (key x) seen) as [Hseen|Hnew].
  - pose proof (drop_seen_fresh rs seen r Hin) as Hfresh.
    destruct (IH seen r Hin) as (before & after & -> & Hb).
    exists (x :: before), after. split; [reflexivity|].
    cbn [map]. intros [Hx|Hx]; [|exact (Hb Hx)].
    apply Hfresh. rewrite <- Hx. exact Hseen.
  - destruct Hin as [->|Hin].
    + exists [], rs. split; [reflexivity | intros []].
    + pose proof (drop_seen_fresh rs (key x :: seen) r Hin) as Hfresh.
      destruct (IH (key x :: seen) r Hin) as (before & after & -> & Hb).
      exists (x :: before), after. split; [reflexivity|].
      cbn [map]. intros [Hx|Hx]; [|exact (Hb Hx)].
      apply Hfresh. left. exact Hx.
Qed.

Lemma drop_seen_keeps_first (before after : list (list cell)) (r : list cell) :
  forall seen,
    ~ In (key r) seen -> ~ In (key r) (map key before) ->
    In r (drop_seen key seen (before ++ r :: after)).
Proof.
  induction before as [|x before IH]; intros seen Hseen Hb; cbn [app drop_seen].
  - destruct (in_dec key_eq_dec (key r) seen); [contradiction | left; reflexivity].
  - cbn [map] in Hb.
    destruct (in_dec key_eq_dec (key x) seen).
    + apply IH; [exact Hseen | intros H; apply Hb; right; exact H].
    + right. apply IH.
      * intros [Hx|Hs]; [apply Hb; left; exact Hx | exact (Hseen Hs)].
      * intros H; apply Hb; right; exact H.
Qed.

Lemma drop_seen_complete (rs : list (list cell)) :
  forall seen r,
    In r rs -> In (key r) seen \/ In (key r) (map key (drop_seen key seen rs)).
Proof.
  induction rs as [|x rs IH]; intros seen r Hin; [contradiction|].
  cbn [drop_seen].
  destruct (in_dec key_eq_dec (key x) seen) as [Hseen|Hnew].
  - destruct Hin as [->|Hin]; [left; exact Hseen | apply IH; exact Hin].
  - cbn [map]. destruct Hin as [->|Hin]; [right; left; reflexivity|].
    destruct (IH (key x :: seen) r Hin) as [[Hx|Hs]|Hout].
    + right. left. exact Hx.
    + left. exact Hs.
    + right. right. exact Hout.
Qed.

Lemma Subseq_incl {A : Type} (l1 l2 : list A) : Subseq l1 l2 -> incl l1 l2.
Proof.
  induction 1 as [|x l1 l2 _ IH|x l1 l2 _ IH]; intros a Ha.
  - exact Ha.
  - right. apply IH. exact Ha.
  - destruct Ha as [->|Ha]; [left; reflexivity | right; apply IH; exact Ha].
Qed.

(** The rows kept are as many as the distinct keys of the table. *)
Lemma drop_seen_length (rs : list (list cell)) :
  List.length (drop_seen key [] rs)
  = List.length (nodup key_eq_dec (map key rs)).
Proof.
  rewrite <- (length_map key (drop_seen key [] rs)).
  apply Nat.le_antisymm; apply NoDup_incl_length.
  - apply drop_seen_NoDup.
  - intros k Hk. apply nodup_In. apply in_map_iff in Hk as (r & <- & Hr).
    apply in_map. apply (Subseq_incl _ _ (drop_seen_subseq rs [])). exact Hr.
  - apply NoDup_nodup.
  - intros k Hk. apply nodup_In in Hk. apply in_map_iff in Hk as (r & <- & Hr).
    destruct (drop_seen_complete rs [] r Hr) as [[]|Hout]. exact Hout.
Qed.

End DropSeen.

(** C6.  When none of the four key columns is a column of the table,
    [dedupe_minimal] returns the table itself.  Otherwise it keeps the
    columns and returns the rows that are the first of their key (the
    cells under the key columns present), in their original order: the
    rows kept are a subsequence of the input, their keys are pairwise
    distinct, a row is kept exactly when no earlier row has its key, every
    key of the input is the key of a kept row, and the number of rows kept
    is the number of distinct keys. *)
Theorem dedupe_minimal_keeps_first_of_each_key (df : DataFrame) :
  let key := key_of (columns df) (present_keys df) in
  (present_keys df = [] -> dedupe_minimal df = df)
  /\ (present_keys df <> [] ->
      columns (dedupe_minimal df) = columns df
      /\ Subseq (rows (dedupe_minimal df)) (rows df)
      /\ NoDup (map key (rows (dedupe_minimal df)))
      /\ (forall r, In r (rows (dedupe_minimal df)) <-> first_with_key key (rows df) r)
      /\ (forall r, In r (rows df) -> In (key r) (map key (rows (dedupe_minimal df))))
      /\ List.length (rows (dedupe_minimal df)) = distinct_keys df).
Proof.
  cbv zeta. unfold dedupe_minimal, distinct_keys. split.
  - intros ->. reflexivity.
  - intros Hkeys. destruct (present_keys df) as [|k ks] eqn:Hk; [contradiction|].
    cbn [drop_duplicates columns rows].
    set (key := key_of (columns df) (k :: ks)).
    repeat apply conj.
    + reflexivity.
    + apply drop_seen_subseq.
    + apply drop_seen_NoDup.
    + intros r. split.
      * apply drop_seen_first.
      * intros (before & after & -> & Hb).
        apply drop_seen_keeps_first; [intros [] | exact Hb].
    + intros r Hr. destruct (drop_seen_complete key (rows df) [] r Hr) as [[]|H].
      exact H.
    + apply drop_seen_length.
Qed.

(** The rows 2 and 4 of the example table repeat the key of row 1; row 3
    differs by its missing start date.  A table without key columns is
    returned as it is. *)
Example dedupe_minimal_examples :
  rows (dedupe_minimal Scripts.awards_table)
  = [ [Some "W91"; Some "ACME"; Some "2024-09-01"];
      [Some "W91"; Some "ACME"; None];
      [Some "N00"; Some "INITECH"; Some "2024-09-02"] ]%string
  /\ distinct_keys Scripts.awards_table = 3%nat
  /\ dedupe_minimal Scripts.recipients_table = Scripts.recipients_table.
Proof. vm_compute. repeat split. Qed.

Lemma dedupe_minimal_keeps_first_of_each_key_witness :
  dedupe_minimal Scripts.recipients_table = Scripts.recipients_table
  /\ List.length (rows (dedupe_minimal Scripts.awards_table))
     = distinct_keys Scripts.awards_table.
Proof.
  split.
  - apply (dedupe_minimal_keeps_first_of_each_key Scripts.recipients_table).
    reflexivity.
  - apply (proj2 (dedupe_minimal_keeps_first_of_each_key Scripts.awards_table)).
    vm_compute. discriminate.
Defined.

(* ------------------------------------------------------------------------- *)
(** ** The statements above at concrete inputs *)
(* ------------------------------------------------------------------------- *)



Lemma request_retries_every_HTTPError_witness :
  (_request_body (NetResponse Scripts.unavailable) = Raise (HTTPStatusError 503)
   /\ is_HTTPError (HTTPStatusError 503) = true)
  /\ _request_from 0 [Scripts.first_try; Scripts.plain_try]
     = (fst (_request_from 1 [Scripts.plain_try]),
        Qmin (jitter Scripts.first_try * inject_Z (2 ^ Z.of_nat 0))
             (max_time - elapsed Scripts.first_try)
        :: snd (_request_from 1 [Scripts.plain_try]))
  /\ _request_from 3 [Scripts.late_try; Scripts.plain_try]
     = (Raise (HTTPStatusError 503), [])
  /\ _request_from 0 [Scripts.undecodable_try; Scripts.plain_try]
     = (Raise JSONDecodeError, [])
  /\ _request_from 0 [Scripts.plain_try; Scripts.first_try] = (Ok [], []).
Proof.
  destruct request_retries_every_HTTPError as (H1 & _ & H3 & H4 & H5).
  split; [|split; [|split; [|split]]].
  - apply (H1 Scripts.unavailable). cbn. lia.
  - apply (proj1 (H3 0%nat Scripts.first_try [Scripts.plain_try]
                    (HTTPStatusError 503) eq_refl eq_refl)).
    reflexivity.
  - apply (proj2 (H3 3%nat Scripts.late_try [Scripts.plain_try]
                    (HTTPStatusError 503) eq_refl eq_refl)).
    vm_compute. discriminate.
  - apply (H4 0%nat Scripts.undecodable_try [Scripts.plain_try] JSONDecodeError);
      reflexivity.
  - apply (H5 0%nat Scripts.plain_try [Scripts.first_try] []); reflexivity.
Defined.


(* ========================================================================= *)
(** * Further properties of the pipeline *)
(* ========================================================================= *)

(* ------------------------------------------------------------------------- *)
(** ** What a backfill delivers and what it costs *)
(* ------------------------------------------------------------------------- *)

Lemma split_range_inv (s e : Z) (halves : list window) :
  _split_range s e = Ok halves ->
  halves = [(s, s + (e - s) / 2); (s + (e - s) / 2 + 1, e)].
Proof.
  unfold _split_range, days_diff.
  destruct (plus_days_inv s ((e - s) / 2) _ eq_refl) as [(-> & _) | (-> & _)];
    cbn [bind]; [|discriminate].
  destruct (plus_days_inv (s + (e - s) / 2) 1 _ eq_refl) as [(-> & _) | (-> & _)];
    cbn [bind]; [|discriminate].
  intros H. injection H as <-. reflexivity.
Qed.

Lemma tiles_app (l1 l2 : list window) (b c : Z) :
  forall a : Z, tiles a l1 b -> tiles (b + 1) l2 c -> tiles a (l1 ++ l2) c.
Proof.
  induction l1 as [|w l1 IH]; intros a H1 H2; cbn [tiles app] in *.
  - subst a. exact H2.
  - destruct H1 as (Hw & Hle & H1). repeat split; try assumption.
    apply IH; assumption.
Qed.

(** The shape of a call of [_attempt]: it ends at its own job, or at the
    dates of a job that raised [RuntimeError], or it splits its window. *)
Lemma attempt_inv (run_job : datetime -> datetime -> result unit) (M : Z)
  (fuel : nat) (ts te : date_text) (r : result unit) (t : call) :
  _attempt run_job M (S fuel) ts te = Some (r, t) ->
  let s := day_of ts in
  let e := day_of te in
  (r = run_job s e /\ t = Call s e (run_job s e) [])
  \/ (exists ex, r = Raise ex /\ t = Call s e (run_job s e) []
                 /\ exists why, run_job s e = Raise (RuntimeError why))
  \/ (exists why, run_job s e = Raise (RuntimeError why) /\ M < _days_between s e
      /\ let m := s + (e - s) / 2 in
         exists (r1 : result unit) (c1 : call),
           _attempt run_job M fuel (strftime s) (strftime m) = Some (r1, c1)
           /\ ((r1 <> Ok tt /\ r = r1 /\ t = Call s e (run_job s e) [c1])
               \/ (r1 = Ok tt
                   /\ exists c2,
                        _attempt run_job M fuel (strftime (m + 1)) (strftime e) = Some (r, c2)
                        /\ t = Call s e (run_job s e) [c1; c2]))).
Proof.
  cbn [_attempt]. intros H. cbv zeta.
  set (s := day_of ts) in *. set (e := day_of te) in *.
  destruct (run_job s e) as [[]|ex|] eqn:Hjob;
    try (left; injection H as <- <-; split; reflexivity).
  destruct ex as [why| | | | | | | |];
    try (left; injection H as <- <-; split; reflexivity).
  unfold _days_between_text, _split_range_text, strptime_text in H.
  destruct (four_digit_year ts); cbn [bind] in H.
  2:{ right. left. exists ValueError. injection H as <- <-. eauto. }
  destruct (four_digit_year te); cbn [bind] in H.
  2:{ right. left. exists ValueError. injection H as <- <-. eauto. }
  fold s e in H.
  destruct (_days_between s e >? M) eqn:Hgt.
  2:{ left. injection H as <- <-. split; reflexivity. }
  rewrite Z.gtb_ltb in Hgt. apply Z.ltb_lt in Hgt.
  destruct (_split_range s e) as [halves|ex|] eqn:Hsplit; cbn [bind] in H.
  - apply split_range_inv in Hsplit. subst halves. right. right.
    exists why. split; [reflexivity|]. split; [exact Hgt|].
    cbn [for_each map fst snd] in H.
    destruct (_attempt run_job M fuel (strftime s) (strftime (s + (e - s) / 2)))
      as [[r1 c1]|]; [|discriminate].
    exists r1, c1. split; [reflexivity|].
    destruct r1 as [[]|ex1|].
    + right. split; [reflexivity|].
      destruct (_attempt run_job M fuel (strftime (s + (e - s) / 2 + 1)) (strftime e))
        as [[r2 c2]|]; [|discriminate].
      exists c2. destruct r2 as [[]|ex2|]; injection H as <- <-; split; reflexivity.
    + left. injection H as <- <-. repeat split. discriminate.
    + left. injection H as <- <-. repeat split. discriminate.
  - right. left. exists ex. injection H as <- <-. eauto.
  - (* [_split_range] never waits *)
    exfalso. unfold _split_range, days_diff in Hsplit.
    destruct (plus_days_inv s ((e - s) / 2) _ eq_refl) as [(E & _) | (E & _)];
      rewrite E in Hsplit; cbn [bind] in Hsplit; [|discriminate].
    destruct (plus_days_inv (s + (e - s) / 2) 1 _ eq_refl) as [(E' & _) | (E' & _)];
      rewrite E' in Hsplit; cbn [bind] in Hsplit; discriminate.
Qed.

(** X1.  When [_attempt] returns normally, whatever the texts of its dates,
    the windows of the jobs that returned tile the requested range. *)
Theorem attempt_success_delivers_every_day
  (run_job : datetime -> datetime -> result unit) (M : Z) (fuel : nat) :
  forall (s e : date_text) (t : call),
    1 <= M -> day_of s <= day_of e ->
    _attempt run_job M fuel s e = Some (Ok tt, t) ->
    tiles (day_of s) (delivered t) (day_of e)
    /\ forall d : Z,
         covering (delivered t) d
         = if in_windowb d (day_of s, day_of e) then 1%nat else 0%nat.
Proof.
  intros s e t HM Hse H.
  assert (T : tiles (day_of s) (delivered t) (day_of e)).
  { revert s e t Hse H. induction fuel as [|fuel IH]; intros ts te t Hse H; [discriminate|].
    destruct (attempt_inv _ _ _ _ _ _ _ H) as
      [(Hr & ->) | [(ex & Hr & _) | (why & Hjob & Hgt & Hsub)]].
    - rewrite <- Hr. cbn. repeat split; lia.
    - discriminate.
    - cbv zeta in Hsub.
      set (s := day_of ts) in *. set (e := day_of te) in *.
      destruct Hsub as (r1 & c1 & E1 & [(Hne & <- & _) | (-> & c2 & E2 & ->)]).
      + contradiction.
      + destruct (halves_sizes s e ltac:(lia)) as (_ & _ & _ & _ & Hsm & Hme).
        rewrite Hjob. cbn [delivered flat_map app]. rewrite app_nil_r.
        apply (tiles_app _ _ (s + (e - s) / 2)).
        * apply (IH (strftime s) (strftime (s + (e - s) / 2)) _ Hsm E1).
        * apply (IH (strftime (s + (e - s) / 2 + 1)) (strftime e) _ Hme E2). }
  split; [exact T|]. intros d. apply (tiles_cover_once _ (day_of e) d (day_of s) T).
Qed.

Lemma attempt_success_delivers_every_day_witness :
  exists t : call,
    _attempt Samples.fails_above_8 7 30
      (typed Samples.september) (typed Samples.end_september)
    = Some (Ok tt, t)
    /\ tiles Samples.september (delivered t) Samples.end_september
    /\ delivered t
       = [(_ymd2ord 2024 9 1, _ymd2ord 2024 9 8); (_ymd2ord 2024 9 9, _ymd2ord 2024 9 15);
          (_ymd2ord 2024 9 16, _ymd2ord 2024 9 23); (_ymd2ord 2024 9 24, _ymd2ord 2024 9 30)].
Proof.
  eexists. split; [vm_compute; reflexivity|]. split.
  - apply (attempt_success_delivers_every_day Samples.fails_above_8 7 30
             (typed Samples.september) (typed Samples.end_september)).
    + lia.
    + vm_compute. discriminate.
    + vm_compute. reflexivity.
  - vm_compute. reflexivity.
Defined.

(** X2.  On a range of [D >= 1] days with [min_split_days >= 1], a call of
    [_attempt] submits at most [2 D - 1] jobs, whatever the texts of its
    dates. *)
Theorem attempt_submits_at_most_2D_jobs
  (run_job : datetime -> datetime -> result unit) (M : Z) (fuel : nat) :
  forall (s e : date_text) (r : result unit) (t : call),
    1 <= M -> 1 <= _days_between (day_of s) (day_of e) ->
    _attempt run_job M fuel s e = Some (r, t) ->
    Z.of_nat (jobs_submitted t) <= 2 * _days_between (day_of s) (day_of e) - 1.
Proof.
  intros s e r t HM. revert s e r t.
  induction fuel as [|fuel IH]; intros ts te r t HD H; [discriminate|].
  destruct (attempt_inv _ _ _ _ _ _ _ H) as
    [(_ & ->) | [(ex & _ & -> & _) | (why & Hjob & Hgt & Hsub)]];
    try (cbn [jobs_submitted fold_right]; lia).
  cbv zeta in Hsub.
  set (s := day_of ts) in *. set (e := day_of te) in *.
  destruct (halves_sizes s e ltac:(lia)) as (Ha & Hb & _ & _ & _ & _).
  assert (Hsum : _days_between s (s + (e - s) / 2)
                 + _days_between (s + (e - s) / 2 + 1) e = _days_between s e)
    by (unfold _days_between, days_diff; lia).
  destruct Hsub as (r1 & c1 & E1 & [(_ & _ & ->) | (_ & c2 & E2 & ->)]).
  - pose proof (IH (strftime s) (strftime (s + (e - s) / 2)) _ _ (proj1 Ha) E1) as J1.
    cbn [day_of strftime] in J1.
    cbn [jobs_submitted fold_right]. lia.
  - pose proof (IH (strftime s) (strftime (s + (e - s) / 2)) _ _ (proj1 Ha) E1) as J1.
    pose proof (IH (strftime (s + (e - s) / 2 + 1)) (strftime e) _ _ (proj1 Hb) E2) as J2.
    cbn [day_of strftime] in J1, J2.
    cbn [jobs_submitted fold_right]. lia.
Qed.

Lemma attempt_submits_at_most_2D_jobs_witness :
  exists (r : result unit) (t : call),
    _attempt Scripts.always_failing 1 30
      (typed Samples.september) (typed (_ymd2ord 2024 9 4)) = Some (r, t)
    /\ Z.of_nat (jobs_submitted t) <= 2 * _days_between Samples.september (_ymd2ord 2024 9 4) - 1.
Proof.
  eexists. eexists. split; [vm_compute; reflexivity|].
  apply (attempt_submits_at_most_2D_jobs Scripts.always_failing 1 30
           (typed Samples.september) (typed (_ymd2ord 2024 9 4))
           (Raise (RuntimeError BulkJobFailed))).
  - lia.
  - vm_compute. discriminate.
  - vm_compute. reflexivity.
Defined.

(** X3.  Whatever the backend does, whatever [min_split_days] is and
    whatever the texts of the dates, a call of [_attempt] has calls below
    it only if its own job raised a [RuntimeError] on a window longer than
    [min_split_days]; a job that returned, or that raised anything else (a
    connection error that outlived the retries), is never followed by a
    split. *)
Theorem attempt_splits_only_on_RuntimeError
  (run_job : datetime -> datetime -> result unit) (M : Z) (fuel : nat) :
  forall (s e : date_text) (r : result unit) (t : call),
    _attempt run_job M fuel s e = Some (r, t) ->
    every_call (fun s' e' job cs =>
                  job = run_job s' e'
                  /\ (cs <> [] ->
                      (exists why, job = Raise (RuntimeError why))
                      /\ M < _days_between s' e')) t.
Proof.
  induction fuel as [|fuel IH]; intros s e r t H; [discriminate|].
  destruct (attempt_inv _ _ _ _ _ _ _ H) as
    [(_ & ->) | [(ex & _ & -> & _) | (why & Hjob & Hgt & Hsub)]];
    try (cbn [every_call fold_right];
         split; [split; [reflexivity | intros Hne; exfalso; apply Hne; reflexivity]
                | exact I]).
  cbv zeta in Hsub.
  destruct Hsub as (r1 & c1 & E1 & [(_ & _ & ->) | (_ & c2 & E2 & ->)]);
    cbn [every_call fold_right]; repeat split; eauto.
Qed.

Lemma attempt_splits_only_on_RuntimeError_witness :
  _attempt Samples.breaks_on_month 7 30
    (typed Samples.september) (typed Samples.end_september)
  = Some (Raise TransportError,
          Call Samples.september Samples.end_september (Raise TransportError) [])
  /\ every_call (fun s' e' job cs =>
                   job = Samples.breaks_on_month s' e'
                   /\ (cs <> [] ->
                       (exists why, job = Raise (RuntimeError why))
                       /\ 7 < _days_between s' e'))
       (Call Samples.september Samples.end_september (Raise TransportError) []).
Proof.
  split; [vm_compute; reflexivity|].
  apply (attempt_splits_only_on_RuntimeError Samples.breaks_on_month 7 30
           (typed Samples.september) (typed Samples.end_september)
           (Raise TransportError)).
  vm_compute. reflexivity.
Defined.

(** X4.  [bulk_backfill_awards] goes through the groups in order.  The
    events it leaves are about a prefix of the groups, [Skipped] for the
    groups outside the vocabulary and [Attempted] for the others; when it
    returns normally every group has its event, and when it does not the
    last event is the attempt that failed: the groups after it are not
    touched. *)
Theorem backfill_groups_in_order
  (backend : string -> datetime -> datetime -> JobScript) (M : Z) (fuel : nat)
  (s e : date_text) (groups : list string) :
  forall (r : result unit) (evs : list group_event),
    backfill_groups backend M fuel s e groups = Some (r, evs) ->
    (exists rest : list string,
        groups = map event_group evs ++ rest
        /\ (r = Ok tt -> rest = [])
        /\ (r <> Ok tt -> exists evs' g c, evs = evs' ++ [Attempted g c]))
    /\ Forall (fun ev => match ev with
                         | Skipped g => known_group g = false
                         | Attempted g _ => known_group g = true
                         end) evs.
Proof.
  induction groups as [|g gs IH]; intros r evs H; cbn [backfill_groups] in H.
  - injection H as <- <-. split; [|constructor].
    exists []. repeat split. intros Hne. contradiction.
  - destruct (known_group g) eqn:Hk; cbn [negb] in H.
    + destruct (_attempt _ M fuel s e) as [[r1 c]|]; [|discriminate].
      destruct r1 as [[]|ex|].
      * destruct (backfill_groups backend M fuel s e gs) as [[r0 evs0]|]; [|discriminate].
        injection H as <- <-.
        destruct (IH r0 evs0 eq_refl) as ((rest & Hg & Hok & Hbad) & HF).
        split; [|constructor; assumption].
        exists rest. cbn [map app event_group]. rewrite <- Hg.
        repeat split; try assumption.
        intros Hne. destruct (Hbad Hne) as (evs' & g' & c' & ->).
        exists (Attempted g c :: evs'), g', c'. reflexivity.
      * injection H as <- <-. split; [|repeat constructor; assumption].
        exists gs. repeat split; [discriminate|].
        intros _. exists [], g, c. reflexivity.
      * injection H as <- <-. split; [|repeat constructor; assumption].
        exists gs. repeat split; [discriminate|].
        intros _. exists [], g, c. reflexivity.
    + destruct (backfill_groups backend M fuel s e gs) as [[r0 evs0]|]; [|discriminate].
      injection H as <- <-.
      destruct (IH r0 evs0 eq_refl) as ((rest & Hg & Hok & Hbad) & HF).
      split; [|constructor; assumption].
      exists rest. cbn [map app event_group]. rewrite <- Hg.
      repeat split; try assumption.
      intros Hne. destruct (Hbad Hne) as (evs' & g' & c' & ->).
      exists (Skipped g :: evs'), g', c'. reflexivity.
Qed.

Lemma backfill_groups_in_order_witness :
  exists (r : result unit) (evs : list group_event),
    backfill_groups (fun _ _ _ => Scripts.good_job) 7 30
      (typed Samples.september) (typed Samples.end_september)
      ["subawards"; "contracts"; "grants"]%string
    = Some (r, evs)
    /\ (exists rest : list string,
           ["subawards"; "contracts"; "grants"]%string = map event_group evs ++ rest
           /\ (r = Ok tt -> rest = [])
           /\ (r <> Ok tt -> exists evs' g c, evs = evs' ++ [Attempted g c]))
    /\ Forall (fun ev => match ev with
                         | Skipped g => known_group g = false
                         | Attempted g _ => known_group g = true
                         end) evs.
Proof.
  eexists. eexists. split; [vm_compute; reflexivity|].
  apply (backfill_groups_in_order (fun _ _ _ => Scripts.good_job) 7 30
           (typed Samples.september) (typed Samples.end_september)
           ["subawards"; "contracts"; "grants"]%string).
  vm_compute. reflexivity.
Defined.

(* ------------------------------------------------------------------------- *)
(** ** How many shards *)
(* ------------------------------------------------------------------------- *)

Lemma flat_map_constant_length {A B : Type} (f : A -> list B) (k : nat) (l : list A) :
  (forall a, List.length (f a) = k) ->
  List.length (flat_map f l) = (List.length l * k)%nat.
Proof.
  intros Hf. induction l as [|a l IH]; cbn [flat_map List.length]; [reflexivity|].
  rewrite length_app, Hf, IH. lia.
Qed.

Lemma shards_of_window_length (groups : list string) (agencies : list (option string))
  (s e : datetime) :
  List.length (shards_of_window groups agencies s e)
  = (List.length groups * List.length agencies)%nat.
Proof.
  unfold shards_of_window. apply flat_map_constant_length.
  intros g. apply length_map.
Qed.

Lemma shard_windows_count (chunk_days end_ : Z) (fuel : nat) :
  1 <= chunk_days -> end_ + Z.max 1 (chunk_days - 1) <= MAXORDINAL ->
  forall current : Z,
    MINORDINAL <= current <= end_ + 1 ->
    end_ + 1 - current < Z.of_nat fuel ->
    Z.of_nat (List.length (fst (shard_windows fuel current end_ chunk_days)))
    = (end_ + 1 - current + chunk_days - 1) / chunk_days.
Proof.
  intros Hchunk Hmax. unfold shard_windows, MINORDINAL, MAXORDINAL in *.
  induction fuel as [|fuel IH]; intros current Hcur Hfuel; [lia|].
  cbn [shard_loop].
  destruct (current <=? end_) eqn:Hle.
  - apply Z.leb_le in Hle.
    rewrite plus_days_ok
      by (unfold in_datetime_range, MINORDINAL, MAXORDINAL; lia).
    rewrite plus_days_ok
      by (unfold in_datetime_range, MINORDINAL, MAXORDINAL; lia).
    specialize (IH (Z.min (current + (chunk_days - 1)) end_ + 1) ltac:(lia) ltac:(lia)).
    destruct (shard_loop _ fuel _ end_ chunk_days) as [ws fin].
    cbn [fst app List.length] in *. rewrite Nat2Z.inj_succ, IH.
    destruct (Z.le_gt_cases (current + (chunk_days - 1)) end_) as [Hfull|Hlast].
    + rewrite Z.min_l by lia.
      replace (end_ + 1 - current + chunk_days - 1)
        with (end_ + 1 - (current + (chunk_days - 1) + 1) + chunk_days - 1
              + 1 * chunk_days) by lia.
      rewrite Z.div_add by lia. lia.
    + rewrite Z.min_r by lia.
      replace (end_ + 1 - (end_ + 1) + chunk_days - 1) with (chunk_days - 1) by lia.
      rewrite Z.div_small by lia.
      apply Z.div_unique with (r := end_ + 1 - current - 1); lia.
  - apply Z.leb_gt in Hle. cbn [fst List.length].
    replace (end_ + 1 - current + chunk_days - 1) with (chunk_days - 1) by lia.
    rewrite Z.div_small by lia. reflexivity.
Qed.

(** X5.  Under the conditions in which the shard generator is exhausted
    normally, it yields [ceil(D / chunk_days)] windows for a range of [D]
    days, and one shard per window, group and agency. *)
Theorem shard_iter_count
  (start_date end_date chunk_days : Z) (groups : list string)
  (agencies : option (list string)) (fuel : nat) :
  in_datetime_range start_date -> in_datetime_range end_date ->
  start_date <= end_date -> 1 <= chunk_days ->
  end_date + Z.max 1 (chunk_days - 1) <= MAXORDINAL ->
  _days_between start_date end_date < Z.of_nat fuel ->
  Z.of_nat (List.length (fst (shard_iter fuel start_date end_date groups agencies chunk_days)))
  = (_days_between start_date end_date + chunk_days - 1) / chunk_days
    * Z.of_nat (List.length (groups_or_default groups))
    * Z.of_nat (List.length (agencies_or_none agencies)).
Proof.
  intros Hs He Hse Hchunk Hmax Hfuel.
  unfold in_datetime_range, _days_between, days_diff in *.
  pose proof (shard_windows_count chunk_days end_date fuel Hchunk Hmax start_date
                ltac:(lia) ltac:(lia)) as Hcount.
  unfold shard_iter. rewrite shard_loop_by_window. cbn [fst].
  rewrite (flat_map_constant_length _
             (List.length (groups_or_default groups)
              * List.length (agencies_or_none agencies))%nat)
    by (intros w; apply shards_of_window_length).
  replace (end_date - start_date + 1) with (end_date + 1 - start_date) by lia.
  rewrite <- Hcount. rewrite !Nat2Z.inj_mul. apply Z.mul_assoc.
Qed.

Lemma shard_iter_count_witness :
  Z.of_nat (List.length (fst (shard_iter 31 Samples.september Samples.end_september
                                ["contracts"; "grants"]%string
                                (Some ["Department of Defense"]%string) 7)))
  = (_days_between Samples.september Samples.end_september + 7 - 1) / 7
    * Z.of_nat (List.length (groups_or_default ["contracts"; "grants"]%string))
    * Z.of_nat (List.length (agencies_or_none (Some ["Department of Defense"]%string))).
Proof.
  apply (shard_iter_count Samples.september Samples.end_september 7);
    vm_compute; try split; congruence.
Defined.

(* ------------------------------------------------------------------------- *)
(** ** Deduplication, again *)
(* ------------------------------------------------------------------------- *)

Lemma drop_seen_distinct (key : list cell -> list cell) (rs : list (list cell)) :
  forall seen,
    NoDup (map key rs) -> (forall r, In r rs -> ~ In (key r) seen) ->
    drop_seen key seen rs = rs.
Proof.
  induction rs as [|r rs IH]; intros seen Hnd Hseen; [reflexivity|].
  cbn [drop_seen]. cbn [map] in Hnd. inversion Hnd as [|k ks Hk Hnd']; subst.
  destruct (in_dec key_eq_dec (key r) seen) as [Hin|_].
  - exfalso. apply (Hseen r); [left; reflexivity | exact Hin].
  - f_equal. apply IH; [exact Hnd'|].
    intros r' Hr' [Heq|Hs].
    + apply Hk. rewrite Heq. apply in_map. exact Hr'.
    + apply (Hseen r'); [right; exact Hr' | exact Hs].
Qed.

(** X6.  [dedupe_minimal] is idempotent, returns a table whose keys are
    already distinct with its rows unchanged, and always keeps the first
    row of the table. *)
Theorem dedupe_minimal_idempotent (df : DataFrame) :
  dedupe_minimal (dedupe_minimal df) = dedupe_minimal df
  /\ (NoDup (map (key_of (columns df) (present_keys df)) (rows df)) ->
      rows (dedupe_minimal df) = rows df)
  /\ (forall r rs, rows df = r :: rs ->
        exists rs', rows (dedupe_minimal df) = r :: rs').
Proof.
  unfold dedupe_minimal.
  destruct (present_keys df) as [|k ks] eqn:Hk.
  - rewrite Hk. repeat split; eauto.
  - assert (Hk' : present_keys (drop_duplicates df (k :: ks)) = k :: ks) by exact Hk.
    rewrite Hk'. split; [|split].
    + unfold drop_duplicates. cbn [columns rows]. f_equal.
      apply drop_seen_distinct; [apply drop_seen_NoDup | intros r _ []].
    + intros Hnd. cbn [drop_duplicates rows].
      apply drop_seen_distinct; [exact Hnd | intros r _ []].
    + intros r rs Hrows. cbn [drop_duplicates rows]. rewrite Hrows.
      cbn [drop_seen].
      destruct (in_dec key_eq_dec (key_of (columns df) (k :: ks) r) []) as [[]|_].
      eauto.
Qed.

Lemma dedupe_minimal_idempotent_witness :
  rows (dedupe_minimal {| columns := Samples.search_fields;
                          rows := [Samples.row "W91" "ACME" "2024-09-01";
                                   Samples.row "N00" "INITECH" "2024-09-02"] |})
  = [Samples.row "W91" "ACME" "2024-09-01"; Samples.row "N00" "INITECH" "2024-09-02"]%string.
Proof.
  apply (proj1 (proj2 (dedupe_minimal_idempotent
                          {| columns := Samples.search_fields;
                             rows := [Samples.row "W91" "ACME" "2024-09-01";
                                      Samples.row "N00" "INITECH" "2024-09-02"] |}))).
  vm_compute. repeat constructor; cbn; intuition discriminate.
Defined.

(* ------------------------------------------------------------------------- *)
(** ** Waiting, retrying and giving up *)
(* ------------------------------------------------------------------------- *)

(** X7.  [wait] sleeps exactly until [min_interval] after the previous
    return, and not at all when that moment has passed: apart from [lag]
    it returns at the later of the call time and [_last + min_interval]. *)
Theorem wait_sleeps_no_longer_than_needed (self : RateLimiter) (clock lag : Q) :
  (snd (wait self clock lag)
   == Qmax clock (_last self + min_interval self) + lag)%Q
  /\ ((_last self + min_interval self <= clock)%Q ->
      snd (wait self clock lag) = (clock + lag)%Q).
Proof.
  unfold wait. cbn [snd].
  destruct (Qlt_le_dec (clock - _last self) (min_interval self)) as [Hlt|Hge].
  - split.
    + rewrite Q.max_r by lra. lra.
    + intros Hle. lra.
  - split.
    + rewrite Q.max_l by lra. reflexivity.
    + reflexivity.
Qed.

Lemma wait_sleeps_no_longer_than_needed_witness :
  snd (wait {| min_interval := 1 # 3; _last := 1000 |} 1002 0) = (1002 + 0)%Q.
Proof.
  apply (proj2 (wait_sleeps_no_longer_than_needed
                  {| min_interval := 1 # 3; _last := 1000 |} 1002 0)).
  vm_compute. discriminate.
Defined.

(** X8.  [_request] gives up on an [httpx.HTTPError] only at a try that
    started 180 seconds or more after the first one, and the error it
    raises is the one of that try; when no try starts before time 0, no
    wait is longer than 180 seconds. *)
Theorem request_gives_up_only_after_max_time (script : list attempt) :
  forall (n : nat),
    (forall e, fst (_request_from n script) = Raise e -> is_HTTPError e = true ->
       exists a, In a script /\ (max_time <= elapsed a)%Q
                 /\ _request_body (reply a) = Raise e)
    /\ (Forall (fun a => (0 <= elapsed a)%Q) script ->
        Forall (fun w => (w <= max_time)%Q) (snd (_request_from n script))).
Proof.
  induction script as [|a rest IH]; intros n; cbn [_request_from].
  - split; [intros e H; discriminate | intros _; constructor].
  - destruct (_request_body (reply a)) as [d|e0|] eqn:Hbody; cbn [fst snd];
      try (split; [intros e H; discriminate | intros _; constructor]).
    destruct (is_HTTPError e0) eqn:Hhttp.
    + destruct (Qle_bool max_time (elapsed a)) eqn:Hle; cbn [fst snd].
      * split; [|intros _; constructor].
        intros e H _. injection H as <-. exists a.
        split; [left; reflexivity|]. split; [apply Qle_bool_iff; exact Hle | exact Hbody].
      * destruct (IH (S n)) as [IH1 IH2].
        destruct (_request_from (S n) rest) as [r waits]. cbn [fst snd] in *.
        split.
        -- intros e H He. destruct (IH1 e H He) as (a' & Hin & Ha').
           exists a'. split; [right; exact Hin | exact Ha'].
        -- intros Hel. inversion Hel as [|x xs Hx Hxs]; subst.
           constructor; [|apply IH2; exact Hxs].
           pose proof (Q.le_min_r (jitter a * inject_Z (2 ^ Z.of_nat n))
                         (max_time - elapsed a)) as Hmin.
           lra.
    + cbn [fst snd]. split; [|intros _; constructor].
      intros e H He. injection H as <-. rewrite Hhttp in He. discriminate.
Qed.

Lemma request_gives_up_only_after_max_time_witness :
  (exists a, In a [Scripts.first_try; Scripts.late_try; Scripts.plain_try]
             /\ (max_time <= elapsed a)%Q
             /\ _request_body (reply a) = Raise (HTTPStatusError 503))
  /\ Forall (fun w => (w <= max_time)%Q)
       (snd (_request_from 0 [Scripts.first_try; Scripts.late_try; Scripts.plain_try])).
Proof.
  destruct (request_gives_up_only_after_max_time
              [Scripts.first_try; Scripts.late_try; Scripts.plain_try] 0) as [H1 H2].
  split.
  - apply (H1 (HTTPStatusError 503)); reflexivity.
  - apply H2. repeat constructor; cbn; discriminate.
Defined.

(** What can leave one pass of the streaming loop. *)
Lemma fetch_once_cases (g : http_reply * body_result) :
  (fetch_once g = Ok true /\ g = (Status 200, BodyComplete))
  \/ (fetch_once g = Raise OSError /\ g = (Status 200, BodyDiskError))
  \/ (fetch_once g = Ok false /\ retried g = true).
Proof.
  destruct g as [[c|] b].
  - destruct (Z.eq_dec c 200) as [->|Hc].
    + destruct b; [left | right; right | right; left]; split; reflexivity.
    + right. right. split; [apply fetch_once_retries_every_status; exact Hc|].
      apply Z.eqb_neq in Hc. cbn [retried]. rewrite Hc. destruct b; reflexivity.
  - right. right. split; [reflexivity | destruct b; reflexivity].
Qed.

(** X9.  The streaming loop of [_download_file] never raises an httpx error
    nor a [RuntimeError]: the only exception that leaves it is the
    [OSError] of a failed write.  As long as no 200 response delivers its
    body (or fails on disk), it sleeps after every request and goes on,
    whatever the number of failures. *)
Theorem fetch_loop_only_stops_on_200 (script : list (http_reply * body_result)) :
  forall backoff_sec : Q,
    (forall e, fst (fetch_loop script backoff_sec) = Raise e -> e = OSError)
    /\ (forallb retried script = true ->
        fst (fetch_loop script backoff_sec) = Pending
        /\ List.length (snd (fetch_loop script backoff_sec)) = List.length script).
Proof.
  induction script as [|g rest IH]; intros b; cbn [fetch_loop forallb].
  - split; [intros e H; discriminate | intros _; split; reflexivity].
  - destruct (fetch_once_cases g) as [(-> & ->) | [(-> & ->) | (-> & Hg)]];
      cbn [fst snd].
    + split; [intros e H; discriminate | intros H; discriminate].
    + split; [intros e H; injection H as <-; reflexivity | intros H; discriminate].
    + rewrite Hg. cbn [andb].
      destruct (IH (Qmin (b * (3 # 2)) 45)) as [IH1 IH2].
      destruct (fetch_loop rest (Qmin (b * (3 # 2)) 45)) as [r sleeps].
      cbn [fst snd List.length] in *. split; [exact IH1|].
      intros Hrest. destruct (IH2 Hrest) as [-> ->]. split; reflexivity.
Qed.

Lemma fetch_loop_only_stops_on_200_witness :
  fst (fetch_loop [(Status 401, BodyComplete); (HTTPErr, BodyComplete);
                   (Status 200, BodyReadError); (Status 302, BodyComplete)] 2) = Pending
  /\ List.length (snd (fetch_loop [(Status 401, BodyComplete); (HTTPErr, BodyComplete);
                                   (Status 200, BodyReadError); (Status 302, BodyComplete)] 2))
     = List.length [(Status 401, BodyComplete); (HTTPErr, BodyComplete);
                    (Status 200, BodyReadError); (Status 302, BodyComplete)].
Proof.
  apply (proj2 (fetch_loop_only_stops_on_200
                  [(Status 401, BodyComplete); (HTTPErr, BodyComplete);
                   (Status 200, BodyReadError); (Status 302, BodyComplete)] 2)).
  reflexivity.
Defined.

(** X10.  The sleeps of the streaming loop start at the initial backoff, each
    next one is the previous one times 1.5 capped at 45 seconds, and with
    an initial backoff between 0 and 45 none is longer than 45 seconds. *)
Theorem fetch_loop_sleeps_are_geometric (script : list (http_reply * body_result)) :
  forall backoff_sec : Q,
    geometric 45 (snd (fetch_loop script backoff_sec))
    /\ (forall t ts, snd (fetch_loop script backoff_sec) = t :: ts -> t = backoff_sec)
    /\ ((0 <= backoff_sec <= 45)%Q ->
        Forall (fun t => (0 <= t <= 45)%Q) (snd (fetch_loop script backoff_sec))).
Proof.
  induction script as [|g rest IH]; intros b; cbn [fetch_loop].
  - cbn. repeat split; [intros t ts H; discriminate | intros _; constructor].
  - destruct (fetch_once g) as [[|]|e|]; cbn [snd];
      try (cbn; repeat split; [intros t ts H; discriminate | intros _; constructor]).
    destruct (IH (Qmin (b * (3 # 2)) 45)) as (IH1 & IH2 & IH3).
    destruct (fetch_loop rest (Qmin (b * (3 # 2)) 45)) as [r sleeps].
    cbn [snd] in *. split; [|split].
    + cbn [geometric]. destruct sleeps as [|t2 ts]; [exact I|].
      split; [apply (IH2 t2 ts eq_refl) | exact IH1].
    + intros t ts H. injection H as <- _. reflexivity.
    + intros Hb. constructor; [exact Hb|]. apply IH3.
      pose proof (Q.le_min_r (b * (3 # 2)) 45).
      destruct (Q.min_spec (b * (3 # 2)) 45) as [[_ Hm]|[_ Hm]]; rewrite Hm; lra.
Qed.

Lemma fetch_loop_sleeps_are_geometric_witness :
  Forall (fun t => (0 <= t <= 45)%Q)
    (snd (fetch_loop (repeat (Status 503, BodyComplete) 12) 2)).
Proof.
  apply (proj2 (proj2 (fetch_loop_sleeps_are_geometric
                         (repeat (Status 503, BodyComplete) 12) 2))).
  split; discriminate.
Defined.

(** X11.  The availability probe of [_download_file] cannot wait forever.
    Whatever the file server answers, and however long each request takes,
    within 1351 probes it has either found the file or raised
    [RuntimeError] ("File not available"); it raises nothing else. *)
Theorem probe_loop_ends (script : list (http_reply * Q)) :
  forall elapsed backoff_sec : Q,
    Forall (fun p => (0 <= snd p)%Q) script ->
    (0 <= elapsed <= max_wait_seconds)%Q -> (2 <= backoff_sec)%Q ->
    (max_wait_seconds < elapsed + 2 * inject_Z (Z.of_nat (List.length script)))%Q ->
    probe_loop script elapsed backoff_sec = Ok tt
    \/ probe_loop script elapsed backoff_sec = Raise (RuntimeError FileNotAvailable).
Proof.
  unfold max_wait_seconds.
  induction script as [|[r took] rest IH]; intros el b Hdur Hel Hb Hlen.
  - cbn [List.length] in Hlen. change (inject_Z (Z.of_nat 0)) with 0%Q in Hlen. lra.
  - cbn [probe_loop]. destruct (is_available r); [left; reflexivity|].
    unfold max_wait_seconds.
    inversion Hdur as [|x xs Htook Hrest]; subst. cbn [snd] in Htook.
    destruct (Qlt_le_dec 2700 (el + took + b)) as [Hout|Hin]; [right; reflexivity|].
    apply IH.
    + exact Hrest.
    + lra.
    + destruct (Q.min_spec (b * (3 # 2)) 30) as [[_ Hm]|[_ Hm]]; rewrite Hm; lra.
    + cbn [List.length] in Hlen.
      rewrite Nat2Z.inj_succ, <- Z.add_1_r, inject_Z_plus in Hlen.
      change (inject_Z 1) with 1%Q in Hlen. lra.
Qed.

Lemma probe_loop_ends_witness :
  probe_loop (repeat (Status 404, 1 # 2) 1351) 0 2 = Ok tt
  \/ probe_loop (repeat (Status 404, 1 # 2) 1351) 0 2
     = Raise (RuntimeError FileNotAvailable).
Proof.
  apply (probe_loop_ends (repeat (Status 404, 1 # 2) 1351) 0 2).
  - apply Forall_forall. intros p Hp. apply repeat_spec in Hp. subst p.
    cbn. discriminate.
  - split; discriminate.
  - discriminate.
  - rewrite repeat_length. reflexivity.
Defined.

(* ------------------------------------------------------------------------- *)
(** ** Draining the search endpoint *)
(* ------------------------------------------------------------------------- *)

(** The loop on a script of full pages followed by a last answer. *)
Lemma drain_loop_pages (pre : list Page) :
  forall (rows0 : list (list cell)),
    Forall (fun p => results p <> [] /\ hasNext p = Ok true) pre ->
    (forall (last : Page) (rest : list (result Page)),
        results last = [] \/ hasNext last = Ok false ->
        drain_loop (map Ok pre ++ Ok last :: rest) rows0
        = (Ok (rows0 ++ List.concat (map results pre) ++ results last),
           S (List.length pre)))
    /\ (forall (e : exn) (rest : list (result Page)),
           drain_loop (map Ok pre ++ Raise e :: rest) rows0
           = (Raise e, S (List.length pre)))
    /\ (forall (bad : Page) (rest : list (result Page)),
           results bad <> [] -> metadata bad = MetaNull ->
           drain_loop (map Ok pre ++ Ok bad :: rest) rows0
           = (Raise AttributeError, S (List.length pre))).
Proof.
  induction pre as [|p pre IH]; intros rows0 Hpre.
  - split; [|split].
    + intros last rest Hlast. cbn [map app List.concat drain_loop List.length].
      destruct (results last) as [|r rs] eqn:Hres.
      * rewrite app_nil_r. reflexivity.
      * destruct Hlast as [Hnil | Hnext]; [discriminate|].
        rewrite Hnext. reflexivity.
    + intros e rest. reflexivity.
    + intros bad rest Hres Hmeta. cbn [map app drain_loop List.length].
      destruct (results bad) as [|r rs]; [contradiction|].
      unfold hasNext. rewrite Hmeta. reflexivity.
  - inversion Hpre as [|x xs [Hres Hnext] Hrest]; subst.
    destruct (IH (rows0 ++ results p) Hrest) as (IH1 & IH2 & IH3).
    split; [|split].
    + intros last rest Hlast. cbn [map app List.concat drain_loop List.length].
      destruct (results p) as [|r rs] eqn:Hp; [contradiction|].
      rewrite Hnext. cbn [negb]. rewrite (IH1 last rest Hlast).
      rewrite <- !app_assoc. reflexivity.
    + intros e rest. cbn [map app drain_loop List.length].
      destruct (results p) as [|r rs] eqn:Hp; [contradiction|].
      rewrite Hnext. cbn [negb]. rewrite (IH2 e rest). reflexivity.
    + intros bad rest Hbad Hmeta. cbn [map app drain_loop List.length].
      destruct (results p) as [|r rs] eqn:Hp; [contradiction|].
      rewrite Hnext. cbn [negb]. rewrite (IH3 bad rest Hbad Hmeta). reflexivity.
Qed.

(** X12.  [drain_spending_by_award] asks for the pages in order and stops at
    the first page that is empty or does not announce a next page, after
    exactly that many requests and without asking for what follows: it
    returns the rows of the pages up to that one, in order and passed
    through [dedupe_minimal], or the empty table when there is no row.
    When a request fails instead, the exception is raised and the rows
    drained so far are not returned; the same holds of the
    [AttributeError] of a page that has rows and [null] as page
    metadata. *)
Theorem drain_stops_at_last_page_and_dedupes (fields : list string) (pre : list Page) :
  Forall (fun p => results p <> [] /\ hasNext p = Ok true) pre ->
  (forall (last : Page) (rest : list (result Page)),
      results last = [] \/ hasNext last = Ok false ->
      drain_spending_by_award fields (map Ok pre ++ Ok last :: rest)
      = (match List.concat (map results pre) ++ results last with
         | [] => Ok empty_frame
         | r :: rs => Ok (dedupe_minimal {| columns := fields; rows := r :: rs |})
         end,
         S (List.length pre)))
  /\ (forall (e : exn) (rest : list (result Page)),
         drain_spending_by_award fields (map Ok pre ++ Raise e :: rest)
         = (Raise e, S (List.length pre)))
  /\ (forall (bad : Page) (rest : list (result Page)),
         results bad <> [] -> metadata bad = MetaNull ->
         drain_spending_by_award fields (map Ok pre ++ Ok bad :: rest)
         = (Raise AttributeError, S (List.length pre))).
Proof.
  intros Hpre. destruct (drain_loop_pages pre [] Hpre) as (H1 & H2 & H3).
  unfold drain_spending_by_award. split; [|split].
  - intros last rest Hlast. rewrite (H1 last rest Hlast). cbn [app bind].
    destruct (List.concat (map results pre) ++ results last); reflexivity.
  - intros e rest. rewrite (H2 e rest). reflexivity.
  - intros bad rest Hbad Hmeta. rewrite (H3 bad rest Hbad Hmeta). reflexivity.
Qed.

(** Three pages that hold four rows, one of them twice: three requests,
    three rows returned. *)
Lemma drain_stops_at_last_page_and_dedupes_witness :
  Forall (fun p => results p <> [] /\ hasNext p = Ok true)
    [ {| results := [Samples.row "W91" "ACME" "2024-09-01";
                     Samples.row "N00" "INITECH" "2024-09-02"];
         metadata := Meta true |};
      {| results := [Samples.row "W91" "ACME" "2024-09-01"];
         metadata := Meta true |} ]%string
  /\ drain_spending_by_award Samples.search_fields Samples.three_pages
     = (Ok {| columns := Samples.search_fields;
              rows := [Samples.row "W91" "ACME" "2024-09-01";
                       Samples.row "N00" "INITECH" "2024-09-02";
                       Samples.row "F33" "GLOBEX" "2024-09-03"] |}%string, 3%nat).
Proof.
  assert (Hpre : Forall (fun p => results p <> [] /\ hasNext p = Ok true)
            [ {| results := [Samples.row "W91" "ACME" "2024-09-01";
                             Samples.row "N00" "INITECH" "2024-09-02"];
                 metadata := Meta true |};
              {| results := [Samples.row "W91" "ACME" "2024-09-01"];
                 metadata := Meta true |} ]%string)
    by (repeat constructor; discriminate).
  split; [exact Hpre|].
  exact (proj1 (drain_stops_at_last_page_and_dedupes Samples.search_fields _ Hpre)
           {| results := [Samples.row "F33" "GLOBEX" "2024-09-03"];
              metadata := Meta false |}%string
           [Raise TransportError] (or_intror eq_refl)).
Defined.

Lemma drain_loop_requests (script : list (result Page)) :
  forall rows0 rows1,
    fst (drain_loop script rows0) = Ok rows1 ->
    (1 <= snd (drain_loop script rows0))%nat
    /\ (rows0 <> [] -> rows1 <> []).
Proof.
  induction script as [|p rest IH]; intros rows0 rows1; cbn [drain_loop].
  - intros H. discriminate.
  - destruct p as [resp|e|]; cbn [fst snd]; try discriminate.
    destruct (results resp) as [|r rs] eqn:Hres; cbn [fst snd].
    + intros H. injection H as <-. split; [lia | auto].
    + destruct (hasNext resp) as [[|]| |]; cbn [negb fst snd]; try discriminate.
      * specialize (IH (rows0 ++ r :: rs) rows1).
        destruct (drain_loop rest (rows0 ++ r :: rs)) as [r' n]. cbn [fst snd] in *.
        intros H. destruct (IH H) as [_ Hne]. split; [lia|].
        intros _. apply Hne. destruct rows0; discriminate.
      * intros H. injection H as <-. split; [lia|].
        intros _. destruct rows0; discriminate.
Qed.

(** What a non-empty table returned by [drain_spending_by_award] is. *)
Lemma drain_returns_deduped (fields : list string) (script : list (result Page))
  (df : DataFrame) (n : nat) :
  drain_spending_by_award fields script = (Ok df, n) ->
  df_empty df = false ->
  (1 <= n)%nat /\ columns df = fields /\ rows df <> []
  /\ (present_keys df <> [] ->
      NoDup (map (key_of (columns df) (present_keys df)) (rows df))).
Proof.
  unfold drain_spending_by_award.
  pose proof (drain_loop_requests script []) as Hreq.
  destruct (drain_loop script []) as [r k]. cbn [fst snd] in Hreq.
  destruct r as [rows1|e|]; cbn [bind]; try discriminate.
  destruct (Hreq rows1 eq_refl) as [Hk _].
  destruct rows1 as [|r1 rs1].
  - intros H. injection H as <- <-. discriminate.
  - intros H Hempty. injection H as <- <-.
    set (df0 := {| columns := fields; rows := r1 :: rs1 |}) in *.
    assert (Hcols : columns (dedupe_minimal df0) = fields).
    { unfold dedupe_minimal. destruct (present_keys df0); reflexivity. }
    split; [exact Hk|]. split; [exact Hcols|]. split.
    + unfold df_empty in Hempty.
      destruct (rows (dedupe_minimal df0)); [cbn in Hempty; discriminate Hempty|].
      discriminate.
    + assert (Hkeys : present_keys (dedupe_minimal df0) = present_keys df0).
      { unfold present_keys. rewrite Hcols. reflexivity. }
      rewrite Hkeys, Hcols. intros Hne. unfold dedupe_minimal.
      destruct (present_keys df0) as [|k0 ks] eqn:Hp; [contradiction|].
      cbn [drop_duplicates rows columns]. apply drop_seen_NoDup.
Qed.

(** X13.  [incremental_awards] leaves one event per shard, in the order of
    the shards, up to the first request that fails.  It makes no request
    for a shard whose group is outside the vocabulary, and every table it
    writes belongs to a known group, has the fields as columns, holds at
    least one row and no two rows with the same key; a Parquet file is
    written only when pyarrow is installed. *)
Theorem write_shards_events (search : shard -> list (result Page))
  (fields : list string) (have_pyarrow : bool) (fmt : string) (shards : list shard) :
  forall (r : result unit) (evs : list shard_event),
    write_shards search fields have_pyarrow fmt shards = (r, evs) ->
    (exists rest : list shard,
        shards = map (fun ev => match ev with
                                | UnknownGroup sh | NoResults sh _ | Written sh _ _ _ => sh
                                end) evs ++ rest
        /\ (r = Ok tt -> rest = []))
    /\ Forall (fun ev =>
                 match ev with
                 | UnknownGroup sh => known_group (shard_group sh) = false
                 | NoResults sh n => known_group (shard_group sh) = true /\ (1 <= n)%nat
                 | Written sh n kind df =>
                     known_group (shard_group sh) = true /\ (1 <= n)%nat
                     /\ columns df = fields /\ rows df <> []
                     /\ (present_keys df <> [] ->
                         NoDup (map (key_of (columns df) (present_keys df)) (rows df)))
                     /\ (kind = Parquet -> have_pyarrow = true)
                 end) evs.
Proof.
  induction shards as [|sh shards IH]; intros r evs H; cbn [write_shards] in H.
  - injection H as <- <-. split; [exists []; split; reflexivity | constructor].
  - destruct (known_group (shard_group sh)) eqn:Hk; cbn [negb] in H.
    + destruct (drain_spending_by_award fields (search sh)) as [[df| e |] n] eqn:Hdrain.
      * destruct (df_empty df) eqn:Hempty;
          destruct (write_shards search fields have_pyarrow fmt shards) as [r0 evs0];
          injection H as <- <-;
          destruct (IH r0 evs0 eq_refl) as ((rest & Hsh & Hok) & HF).
        -- split; [exists rest; cbn [map app]; rewrite <- Hsh; split; auto|].
           constructor; [|exact HF]. split; [exact Hk|].
           unfold drain_spending_by_award in Hdrain.
           pose proof (drain_loop_requests (search sh) []) as Hreq.
           destruct (drain_loop (search sh) []) as [r1 k]. cbn [fst snd] in Hreq.
           injection Hdrain as Hr <-. destruct r1 as [rows1| |]; try discriminate.
           apply (Hreq rows1 eq_refl).
        -- split; [exists rest; cbn [map app]; rewrite <- Hsh; split; auto|].
           constructor; [|exact HF].
           destruct (drain_returns_deduped _ _ _ _ Hdrain Hempty) as (H1 & H2 & H3 & H4).
           repeat split; try assumption.
           unfold written_kind. destruct (String.eqb (PyStr.lower fmt) "parquet");
             destruct have_pyarrow; intros; try reflexivity; discriminate.
      * injection H as <- <-. split; [|constructor].
        exists (sh :: shards). split; [reflexivity | discriminate].
      * injection H as <- <-. split; [|constructor].
        exists (sh :: shards). split; [reflexivity | discriminate].
    + destruct (write_shards search fields have_pyarrow fmt shards) as [r0 evs0].
      injection H as <- <-.
      destruct (IH r0 evs0 eq_refl) as ((rest & Hsh & Hok) & HF).
      split; [exists rest; cbn [map app]; rewrite <- Hsh; split; auto|].
      constructor; [exact Hk | exact HF].
Qed.

Lemma write_shards_events_witness :
  exists (r : result unit) (evs : list shard_event),
    write_shards Samples.contracts_only Samples.search_fields false "parquet"
      [("grants", Samples.september, Samples.end_september, None);
       ("subawards", Samples.september, Samples.end_september, None);
       ("contracts", Samples.september, Samples.end_september, None)]%string
    = (r, evs)
    /\ List.length evs = 3%nat
    /\ Forall (fun ev =>
                 match ev with
                 | UnknownGroup sh => known_group (shard_group sh) = false
                 | NoResults sh n => known_group (shard_group sh) = true /\ (1 <= n)%nat
                 | Written sh n kind df =>
                     known_group (shard_group sh) = true /\ (1 <= n)%nat
                     /\ columns df = Samples.search_fields /\ rows df <> []
                     /\ (present_keys df <> [] ->
                         NoDup (map (key_of (columns df) (present_keys df)) (rows df)))
                     /\ (kind = Parquet -> false = true)
                 end) evs.
Proof.
  eexists. eexists. split; [vm_compute; reflexivity|]. split; [reflexivity|].
  apply (write_shards_events Samples.contracts_only Samples.search_fields false "parquet"
           [("grants", Samples.september, Samples.end_september, None);
            ("subawards", Samples.september, Samples.end_september, None);
            ("contracts", Samples.september, Samples.end_september, None)]%string
           (Ok tt)).
  vm_compute. reflexivity.
Defined.

(* ------------------------------------------------------------------------- *)
(** ** File names and agency specifiers *)
(* ------------------------------------------------------------------------- *)

Section Strip.

Variable p : ascii -> bool.

Lemma all_chars_lstrip (q : ascii -> bool) (s : string) :
  Text.all_chars q s = true -> Text.all_chars q (Text.lstrip p s) = true.
Proof.
  induction s as [|c t IH]; cbn [Text.lstrip Text.all_chars]; [reflexivity|].
  intros H. apply andb_true_iff in H as [Hc Ht].
  destruct (p c); [apply IH; exact Ht|].
  cbn [Text.all_chars]. rewrite Hc, Ht. reflexivity.
Qed.

Lemma all_chars_rstrip (q : ascii -> bool) (s : string) :
  Text.all_chars q s = true -> Text.all_chars q (Text.rstrip p s) = true.
Proof.
  induction s as [|c t IH]; cbn [Text.rstrip Text.all_chars]; [reflexivity|].
  intros H. apply andb_true_iff in H as [Hc Ht]. specialize (IH Ht).
  destruct (Text.rstrip p t) as [|c2 t2].
  - destruct (p c); cbn [Text.all_chars]; [reflexivity | rewrite Hc; reflexivity].
  - cbn [Text.all_chars] in *. rewrite Hc, IH. reflexivity.
Qed.

Lemma lstrip_starts (s : string) :
  Text.starts_with_char p (Text.lstrip p s) = false.
Proof.
  induction s as [|c t IH]; cbn [Text.lstrip]; [reflexivity|].
  destruct (p c) eqn:Hc; [exact IH | cbn; exact Hc].
Qed.

Lemma rstrip_starts (s : string) :
  Text.starts_with_char p s = false ->
  Text.starts_with_char p (Text.rstrip p s) = false.
Proof.
  destruct s as [|c t]; cbn [Text.rstrip Text.starts_with_char]; [reflexivity|].
  intros Hc. destruct (Text.rstrip p t); [rewrite Hc|]; cbn; exact Hc.
Qed.

Lemma rstrip_ends (s : string) :
  Text.ends_with_char p (Text.rstrip p s) = false.
Proof.
  induction s as [|c t IH]; cbn [Text.rstrip]; [reflexivity|].
  destruct (Text.rstrip p t) as [|c2 t2].
  - destruct (p c) eqn:Hc; cbn; [reflexivity | exact Hc].
  - exact IH.
Qed.

Lemma lstrip_fixed (s : string) :
  Text.starts_with_char p s = false -> Text.lstrip p s = s.
Proof.
  destruct s as [|c t]; cbn [Text.lstrip Text.starts_with_char]; [reflexivity|].
  intros ->. reflexivity.
Qed.

Lemma rstrip_fixed (s : string) :
  Text.ends_with_char p s = false -> Text.rstrip p s = s.
Proof.
  induction s as [|c t IH]; [reflexivity|].
  cbn [Text.rstrip]. destruct t as [|c2 t2].
  - cbn. intros ->. reflexivity.
  - intros H. change (Text.ends_with_char p (String c2 t2) = false) in H.
    rewrite (IH H). reflexivity.
Qed.

Lemma strip_shape (s : string) :
  Text.starts_with_char p (Text.strip p s) = false
  /\ Text.ends_with_char p (Text.strip p s) = false.
Proof.
  unfold Text.strip. split; [apply rstrip_starts, lstrip_starts | apply rstrip_ends].
Qed.

Lemma strip_fixed (s : string) :
  Text.starts_with_char p s = false -> Text.ends_with_char p s = false ->
  Text.strip p s = s.
Proof.
  intros H1 H2. unfold Text.strip. rewrite (lstrip_fixed s H1). apply rstrip_fixed, H2.
Qed.


Lemma all_chars_strip (q : ascii -> bool) (s : string) :
  Text.all_chars q s = true -> Text.all_chars q (Text.strip p s) = true.
Proof. intros H. unfold Text.strip. apply all_chars_rstrip, all_chars_lstrip, H. Qed.

End Strip.

Lemma all_chars_impl (q r : ascii -> bool) (s : string) :
  (forall c, q c = true -> r c = true) ->
  Text.all_chars q s = true -> Text.all_chars r s = true.
Proof.
  intros Hqr. induction s as [|c t IH]; cbn [Text.all_chars]; [reflexivity|].
  intros H. apply andb_true_iff in H as [Hc Ht].
  rewrite (Hqr c Hc), (IH Ht). reflexivity.
Qed.

Lemma all_chars_app (q : ascii -> bool) (a b : string) :
  Text.all_chars q a = true -> Text.all_chars q b = true ->
  Text.all_chars q (a ++ b) = true.
Proof.
  intros Ha Hb. induction a as [|c t IH]; cbn [append Text.all_chars] in *; [exact Hb|].
  apply andb_true_iff in Ha as [Hc Ht]. rewrite Hc, (IH Ht). reflexivity.
Qed.

Lemma sub_unsafe_runs_safe (s : string) :
  forall in_run, Text.all_chars is_slug_char (sub_unsafe_runs in_run s) = true.
Proof.
  induction s as [|c t IH]; intros b; cbn [sub_unsafe_runs]; [reflexivity|].
  destruct (is_slug_char c) eqn:Hc.
  - cbn [Text.all_chars]. rewrite Hc, IH. reflexivity.
  - destruct b; [apply IH|]. cbn [Text.all_chars]. rewrite IH. reflexivity.
Qed.

Lemma sub_unsafe_runs_fixed (s : string) :
  forall in_run,
    Text.all_chars is_slug_char s = true -> sub_unsafe_runs in_run s = s.
Proof.
  induction s as [|c t IH]; intros b H; cbn [sub_unsafe_runs]; [reflexivity|].
  cbn [Text.all_chars] in H. apply andb_true_iff in H as [Hc Ht].
  rewrite Hc, (IH false Ht). reflexivity.
Qed.

Lemma slug_chars_and_ends (s : string) :
  Text.all_chars is_slug_char (_safe_slug s) = true
  /\ Text.starts_with_char Text.is_underscore (_safe_slug s) = false
  /\ Text.ends_with_char Text.is_underscore (_safe_slug s) = false.
Proof.
  unfold _safe_slug. split.
  - apply all_chars_strip, sub_unsafe_runs_safe.
  - apply strip_shape.
Qed.

(** X14.  [_safe_slug] returns a text made of letters, digits, [_], [.] and
    [-] only, that neither starts nor ends with an underscore. *)
Theorem safe_slug_shape (s : string) :
  Text.all_chars is_slug_char (_safe_slug s) = true
  /\ Text.starts_with_char Text.is_underscore (_safe_slug s) = false
  /\ Text.ends_with_char Text.is_underscore (_safe_slug s) = false.
Proof. exact (slug_chars_and_ends s). Qed.

(** X15.  [_safe_slug] leaves a text of that shape as it is; it is therefore
    idempotent. *)
Theorem safe_slug_idempotent (s : string) :
  (Text.all_chars is_slug_char s = true ->
   Text.starts_with_char Text.is_underscore s = false ->
   Text.ends_with_char Text.is_underscore s = false ->
   _safe_slug s = s)
  /\ _safe_slug (_safe_slug s) = _safe_slug s.
Proof.
  assert (Hfix : forall x,
             Text.all_chars is_slug_char x = true ->
             Text.starts_with_char Text.is_underscore x = false ->
             Text.ends_with_char Text.is_underscore x = false ->
             _safe_slug x = x).
  { intros x H1 H2 H3. unfold _safe_slug.
    rewrite (sub_unsafe_runs_fixed x false H1). apply strip_fixed; assumption. }
  split; [apply Hfix|].
  destruct (slug_chars_and_ends s) as (H1 & H2 & H3). apply Hfix; assumption.
Qed.

Lemma safe_slug_idempotent_witness :
  _safe_slug "PrimeAwards_2024-09.zip" = "PrimeAwards_2024-09.zip"%string.
Proof.
  apply (proj1 (safe_slug_idempotent "PrimeAwards_2024-09.zip")); reflexivity.
Defined.

Lemma lower_app (a b : string) :
  PyStr.lower (a ++ b) = (PyStr.lower a ++ PyStr.lower b)%string.
Proof.
  induction a as [|c t IH]; cbn [append PyStr.lower]; [reflexivity|].
  rewrite IH. reflexivity.
Qed.

Lemma endswith_app (a suffix : string) :
  Text.endswith (a ++ suffix) suffix = true.
Proof.
  induction a as [|c t IH]; cbn [append].
  - destruct suffix; cbn [Text.endswith]; rewrite String.eqb_refl; reflexivity.
  - cbn [Text.endswith]. destruct (String.eqb (String c (t ++ suffix)) suffix);
      [reflexivity | exact IH].
Qed.

(** X16.  The archive of a bulk job is written under a name that ends in
    ".zip" (in any letter case) and is made of letters, digits, [_], [.]
    and [-] only: whatever identifier the server assigns, the name holds no
    path separator. *)
Theorem dest_name_is_a_plain_zip_name (file_name : string) :
  Text.endswith (PyStr.lower (dest_name file_name)) ".zip" = true
  /\ Text.all_chars is_slug_char (dest_name file_name) = true
  /\ Text.all_chars (fun c => negb (Ascii.eqb c "/")) (dest_name file_name) = true.
Proof.
  assert (Hsafe : Text.all_chars is_slug_char (dest_name file_name) = true).
  { unfold dest_name.
    destruct (Text.endswith (PyStr.lower (_safe_slug file_name)) ".zip"); cbn [negb].
    - apply slug_chars_and_ends.
    - apply all_chars_app; [apply slug_chars_and_ends | reflexivity]. }
  split; [|split; [exact Hsafe|]].
  - unfold dest_name.
    destruct (Text.endswith (PyStr.lower (_safe_slug file_name)) ".zip") eqn:Hz;
      cbn [negb]; [exact Hz|].
    rewrite lower_app. apply endswith_app.
  - revert Hsafe. apply all_chars_impl. intros c Hc.
    destruct (Ascii.eqb c "/") eqn:H1; [apply Ascii.eqb_eq in H1; subst; discriminate|].
    reflexivity.
Qed.




(** The specifiers of the documentation of [_parse_agency_strings]. *)
Example parse_agency_strings_documented :
  _parse_agency_strings
    (Some ["Department of Defense"; "funding:Department of Defense";
           "Animal and Plant Health Inspection Service|Department of Agriculture";
           " Funding: Animal and Plant Health Inspection Service | Department of Agriculture "]%string)
    "awarding"
  = Some [ {| ag_type := "awarding"; ag_tier := "toptier";
              ag_name := "Department of Defense"; ag_toptier_name := None |};
           {| ag_type := "funding"; ag_tier := "toptier";
              ag_name := "Department of Defense"; ag_toptier_name := None |};
           {| ag_type := "awarding"; ag_tier := "subtier";
              ag_name := "Animal and Plant Health Inspection Service";
              ag_toptier_name := Some "Department of Agriculture" |};
           {| ag_type := "funding"; ag_tier := "subtier";
              ag_name := "Animal and Plant Health Inspection Service";
              ag_toptier_name := Some "Department of Agriculture" |} ]%string.
Proof. vm_compute. reflexivity. Qed.

(* ------------------------------------------------------------------------- *)
(** ** What a job that returns has done *)
(* ------------------------------------------------------------------------- *)

Lemma probe_loop_ok (script : list (http_reply * Q)) :
  forall elapsed backoff_sec : Q,
    probe_loop script elapsed backoff_sec = Ok tt ->
    exists p, In p script /\ is_available (fst p) = true.
Proof.
  induction script as [|[r took] rest IH]; intros el b; cbn [probe_loop]; [discriminate|].
  destruct (is_available r) eqn:Hr.
  - intros _. exists (r, took). split; [left; reflexivity | exact Hr].
  - destruct (Qlt_le_dec max_wait_seconds (el + took + b)); [discriminate|].
    intros H. destruct (IH _ _ H) as (p & Hin & Hp).
    exists p. split; [right; exact Hin | exact Hp].
Qed.

Lemma fetch_loop_ok (script : list (http_reply * body_result)) :
  forall backoff_sec : Q,
    fst (fetch_loop script backoff_sec) = Ok tt ->
    In (Status 200, BodyComplete) script.
Proof.
  induction script as [|g rest IH]; intros b; cbn [fetch_loop]; [discriminate|].
  destruct (fetch_once_cases g) as [(-> & ->) | [(-> & ->) | (-> & Hg)]]; cbn [fst].
  - intros _. left. reflexivity.
  - discriminate.
  - specialize (IH (Qmin (b * (3 # 2)) 45)).
    destruct (fetch_loop rest (Qmin (b * (3 # 2)) 45)) as [r sleeps]. cbn [fst] in *.
    intros H. right. apply IH. exact H.
Qed.

Lemma poll_loop_ok (sr : StartResp) (js : JobScript) (polls : list (result StatusResp)) :
  forall cnt : nat,
    poll_loop sr js cnt polls = Ok tt ->
    exists stat : StatusResp,
      In (Ok stat) polls
      /\ PyStr.mem (PyStr.lower (st_status stat)) ["finished"; "ready"; "success"]%string = true
      /\ finish_job sr stat js = Ok tt.
Proof.
  induction polls as [|p rest IH]; intros cnt; cbn [poll_loop]; [discriminate|].
  destruct p as [stat|e|]; cbn [bind]; try discriminate.
  destruct (blank_message (st_message stat)); [discriminate|].
  destruct (PyStr.contains "exception" (PyStr.lower (st_message stat))
            && (3 <=? (if PyStr.contains "exception" (PyStr.lower (st_message stat))
                       then S cnt else cnt))%nat); [discriminate|].
  destruct (PyStr.mem (PyStr.lower (st_status stat)) ["finished"; "ready"; "success"]%string)
    eqn:Hfin.
  - intros H. exists stat. split; [left; reflexivity|]. split; assumption.
  - destruct (PyStr.mem (PyStr.lower (st_status stat)) ["failed"; "error"]%string);
      [discriminate|].
    intros H. destruct (IH _ H) as (stat' & Hin & Hst).
    exists stat'. split; [right; exact Hin | exact Hst].
Qed.

(** X18.  [_run_bulk_job_or_raise] returns normally only if the submission
    was given a job identifier, some poll reported one of the statuses
    finished, ready or success and a file URL was known, a probe found the
    file available, a GET answered 200 and delivered its whole body, and
    the archive was unpacked. *)
Theorem job_returns_only_after_download (js : JobScript) :
  _run_bulk_job_or_raise js = Ok tt ->
  exists (sr : StartResp) (stat : StatusResp),
    js_start js = Ok sr /\ truthy (sr_file_name sr) = true
    /\ In (Ok stat) (js_polls js)
    /\ PyStr.mem (PyStr.lower (st_status stat)) ["finished"; "ready"; "success"]%string = true
    /\ truthy (py_or (st_file_url stat) (sr_file_url sr)) = true
    /\ (exists p, In p (probes (js_download js)) /\ is_available (fst p) = true)
    /\ In (Status 200, BodyComplete) (gets (js_download js))
    /\ js_unzip js = Ok tt.
Proof.
  unfold _run_bulk_job_or_raise.
  destruct (js_start js) as [sr|e|]; cbn [bind]; try discriminate.
  destruct (truthy (sr_file_name sr)) eqn:Hname; cbn [negb]; [|discriminate].
  intros H. destruct (poll_loop_ok _ _ _ _ H) as (stat & Hin & Hfin & Hdone).
  exists sr, stat. repeat split; try assumption.
  - unfold finish_job in Hdone.
    destruct (truthy (py_or (st_file_url stat) (sr_file_url sr)));
      [reflexivity | discriminate].
  - unfold finish_job, _download_file in Hdone.
    destruct (truthy (py_or (st_file_url stat) (sr_file_url sr))); [|discriminate].
    cbn [negb] in Hdone.
    destruct (probe_loop (probes (js_download js)) 0 2) as [[]| |] eqn:Hprobe;
      cbn [bind] in Hdone; try discriminate.
    apply (probe_loop_ok _ _ _ Hprobe).
  - unfold finish_job, _download_file in Hdone.
    destruct (truthy (py_or (st_file_url stat) (sr_file_url sr))); [|discriminate].
    cbn [negb] in Hdone.
    destruct (probe_loop (probes (js_download js)) 0 2) as [[]| |];
      cbn [bind] in Hdone; try discriminate.
    destruct (fst (fetch_loop (gets (js_download js)) 2)) as [[]| |] eqn:Hfetch;
      cbn [bind] in Hdone; try discriminate.
    apply (fetch_loop_ok _ _ Hfetch).
  - unfold finish_job in Hdone.
    destruct (truthy (py_or (st_file_url stat) (sr_file_url sr))); [|discriminate].
    cbn [negb] in Hdone.
    destruct (_download_file (js_download js)) as [[]| |]; cbn [bind] in Hdone;
      try discriminate.
    destruct (js_unzip js) as [[]| |]; [reflexivity | discriminate | discriminate].
Qed.

Lemma job_returns_only_after_download_witness :
  exists (sr : StartResp) (stat : StatusResp),
    js_start Scripts.good_job = Ok sr /\ truthy (sr_file_name sr) = true
    /\ In (Ok stat) (js_polls Scripts.good_job)
    /\ PyStr.mem (PyStr.lower (st_status stat)) ["finished"; "ready"; "success"]%string = true
    /\ truthy (py_or (st_file_url stat) (sr_file_url sr)) = true
    /\ (exists p, In p (probes (js_download Scripts.good_job)) /\ is_available (fst p) = true)
    /\ In (Status 200, BodyComplete) (gets (js_download Scripts.good_job))
    /\ js_unzip Scripts.good_job = Ok tt.
Proof.
  apply (job_returns_only_after_download Scripts.good_job).
  vm_compute. reflexivity.
Defined.

(** X19.  For every rate that is a finite number, zero and negative rates
    included, the interval of a new limiter is positive and at most 10
    seconds, and so it is for the rate -inf; for the rate inf the interval
    is 0 and for nan it is nan.  A call of [wait] of a limiter whose
    interval is a non-negative number, made after the previous return,
    adds at most the interval to the time spent in the call. *)
Theorem wait_sleep_is_bounded :
  (forall rps : Q,
      exists i : Q,
        min_interval_of (Finite rps) = Finite i
        /\ (i == min_interval (RateLimiter_init rps))%Q
        /\ (0 < i <= 10)%Q)
  /\ (exists i : Q, min_interval_of NegInf = Finite i /\ (i == 10)%Q)
  /\ min_interval_of PosInf = Finite 0%Q
  /\ min_interval_of NaN = NaN
  /\ forall (self : RateLimiter) (clock lag : Q),
       (0 <= min_interval self)%Q -> (_last self <= clock)%Q ->
       (snd (wait self clock lag) - (clock + lag) <= min_interval self)%Q.
Proof.
  split; [|split; [|split; [|split]]].
  - intros rps. unfold min_interval_of, py_max, float_gt.
    cbn [RateLimiter_init min_interval].
    destruct (Qlt_le_dec rps (1 # 10)) as [Hlt|Hle]; cbn [float_inverse].
    + exists (1 / (1 # 10))%Q. split; [reflexivity|].
      assert (Hmax : (Qmax rps (1 # 10) == 1 # 10)%Q) by (apply Q.max_r; lra).
      split; [rewrite Hmax; reflexivity|].
      split; [reflexivity | discriminate].
    + exists (1 / rps)%Q. split; [reflexivity|].
      assert (Hmax : (Qmax rps (1 # 10) == rps)%Q) by (apply Q.max_l; lra).
      split; [rewrite Hmax; reflexivity|].
      assert (Hpos : (0 < rps)%Q) by lra.
      split.
      * unfold Qdiv. rewrite Qmult_1_l. apply Qinv_lt_0_compat. exact Hpos.
      * apply Qle_shift_div_r; [exact Hpos | lra].
  - exists (1 / (1 # 10))%Q. split; reflexivity.
  - reflexivity.
  - reflexivity.
  - intros self clock lag Hmi Hmono. unfold wait. cbn [snd].
    destruct (Qlt_le_dec (clock - _last self) (min_interval self)); lra.
Qed.

Lemma wait_sleep_is_bounded_witness :
  (snd (wait (RateLimiter_init 0) 1000 0) - (1000 + 0)
   <= min_interval (RateLimiter_init 0))%Q.
Proof.
  apply (proj2 (proj2 (proj2 (proj2 wait_sleep_is_bounded)))
           (RateLimiter_init 0) 1000%Q 0%Q);
    vm_compute; discriminate.
Defined.

(** The incremental driver on September 2024 in chunks of 15 days: two
    windows, a table written for each. *)
Example incremental_awards_september :
  match incremental_awards Samples.contracts_only Samples.search_fields true "parquet" 5
          Samples.september Samples.end_september ["contracts"%string] None 15 with
  | (fin, evs) =>
      fin = Some (Ok tt)
      /\ map (fun ev => match ev with
                        | Written (_, s, e, _) n kind df =>
                            Some (s, e, n, kind, List.length (rows df))
                        | _ => None
                        end) evs
         = [Some (_ymd2ord 2024 9 1, _ymd2ord 2024 9 15, 3%nat, Parquet, 3%nat);
            Some (_ymd2ord 2024 9 16, _ymd2ord 2024 9 30, 3%nat, Parquet, 3%nat)]
  end.
Proof. vm_compute. split; reflexivity. Qed.

